(** * Real-Time Stock Market Dashboard: a shallow embedding of [app.py]

    The script fetches an OHLCV table for a ticker, adds two smoothing
    indicator columns to it, renders metrics, a candlestick chart and the
    last rows, counts down and asks the host framework to run it again.

    Conventions of the model.
    - Numbers are float64 values up to rounding: a finite value is the exact
      rational ([Q]) the operation would give, so equalities between finite
      values are stated with [Qeq] ([==]); what rounding cannot hide is
      kept: a result that leaves the float64 range is an infinity, an
      undefined result is NaN, and a zero cell of the provider keeps its
      sign, which decides the sign of a quotient by it.
    - The cells the provider delivers are finite numbers ([num]); the cells
      of the derived columns and the results of arithmetic are any float64
      ([npfloat]).
    - The DataFrame is a mutable object: it lives in a heap ([gmap]) and the
      functions of the script receive a reference to it.
    - Everything the script shows or asks of the outside world is recorded,
      in order, as an [event].
    - [str.upper] is Python's: the script is modelled for any upper-casing
      function ([app_with]), and [upper] is that function on ASCII text. *)

From Stdlib Require Import QArith Qabs ZArith Lia Lqa Ascii String.
From stdpp Require Import base option list gmap strings.

Local Open Scope nat_scope.

(** ** Numbers *)

(** A finite float64, as a cell of the provider's table: its value, or the
    negative zero. *)
Inductive num : Type :=
| Num (q : Q)
| NegZero.

Definition value (x : num) : Q :=
  match x with
  | Num q => q
  | NegZero => 0%Q
  end.
Coercion value : num >-> Q.

Definition signbit (x : num) : bool :=
  match x with
  | Num q => negb (Qle_bool 0 q)
  | NegZero => true
  end.

(** Any float64. *)
Inductive npfloat : Type :=
| Finite (q : Q)
| PosInf
| NegInf
| NaN.

(** From this magnitude on a result rounds to an infinity: the largest
    float64 plus half the gap to the next power of two. *)
Definition float_overflow : Q := inject_Z (2 ^ 1024 - 2 ^ 970).

(** The float64 an operation returns when its exact result is [q]. *)
Definition fl (q : Q) : npfloat :=
  if Qle_bool float_overflow q then PosInf
  else if Qle_bool q (- float_overflow) then NegInf
  else Finite q.

Definition np_neg (a : npfloat) : npfloat :=
  match a with
  | Finite x => Finite (- x)
  | PosInf => NegInf
  | NegInf => PosInf
  | NaN => NaN
  end.

Definition np_add (a b : npfloat) : npfloat :=
  match a, b with
  | NaN, _ | _, NaN => NaN
  | Finite x, Finite y => fl (x + y)
  | PosInf, NegInf | NegInf, PosInf => NaN
  | PosInf, _ | _, PosInf => PosInf
  | NegInf, _ | _, NegInf => NegInf
  end.

Definition np_sub (a b : npfloat) : npfloat := np_add a (np_neg b).

(** [a / n] for a count [n] > 0 *)
Definition np_div_count (a : npfloat) (n : nat) : npfloat :=
  match a with
  | Finite x => fl (x / inject_Z (Z.of_nat n))
  | other => other
  end.

(** [a < 0] and [a > 0] *)
Definition np_negative (a : npfloat) : bool :=
  match a with
  | Finite x => negb (Qle_bool 0 x)
  | NegInf => true
  | _ => false
  end.

Definition np_positive (a : npfloat) : bool :=
  match a with
  | Finite x => negb (Qle_bool x 0)
  | PosInf => true
  | _ => false
  end.

(** [x / y] for a cell [y] of the table.  The cells come out of the table as
    numpy float64 scalars, whose division by zero does not raise: a non-zero
    dividend over a zero gives an infinity, whose sign is the sign of the
    dividend, reversed when the zero is the negative one, and zero over zero
    gives NaN. *)
Definition np_truediv (x : npfloat) (y : num) : npfloat :=
  match x with
  | NaN => NaN
  | PosInf => if signbit y then NegInf else PosInf
  | NegInf => if signbit y then PosInf else NegInf
  | Finite q =>
      if Qeq_bool y 0 then
        match (q ?= 0)%Q with
        | Eq => NaN
        | Gt => if signbit y then NegInf else PosInf
        | Lt => if signbit y then PosInf else NegInf
        end
      else fl (q / y)
  end.

Definition np_mul (a : npfloat) (k : Q) : npfloat :=
  match a, (k ?= 0)%Q with
  | Finite q, _ => fl (q * k)
  | NaN, _ => NaN
  | _, Eq => NaN
  | PosInf, Gt => PosInf
  | PosInf, Lt => NegInf
  | NegInf, Gt => NegInf
  | NegInf, Lt => PosInf
  end.

(** ** Columns *)

(** A cell of a derived column; a missing value is pandas' NaN. *)
Abbreviation cell := npfloat.

(** [values[a:b]] *)
Definition slice {A} (a b : nat) (l : list A) : list A := take (b - a) (drop a l).

Module Rolling.

(** The running state of pandas' [roll_mean] (pandas 1.5 and later): the
    number of observations in the window, their sum, the number of them with
    the sign bit set, the compensation terms of the two Kahan summations,
    and the length and the value of the current run of equal values. *)
Record mean_state : Type := MeanState {
  nobs : nat;
  sum_x : npfloat;
  neg_ct : nat;
  compensation_add : npfloat;
  compensation_remove : npfloat;
  num_consecutive_same_value : nat;
  prev_value : num
}.

(** The cells of the table are numbers, so the test [val == val] of the
    library always passes and is left out. *)
Definition add_mean (st : mean_state) (val : num) : mean_state :=
  let y := np_sub (Finite val) (compensation_add st) in
  let t := np_add (sum_x st) y in
  MeanState (S (nobs st)) t
            (if signbit val then S (neg_ct st) else neg_ct st)
            (np_sub (np_sub t (sum_x st)) y)
            (compensation_remove st)
            (if Qeq_bool val (prev_value st)
             then S (num_consecutive_same_value st) else 1)
            val.

Definition remove_mean (st : mean_state) (val : num) : mean_state :=
  let y := np_sub (Finite (- val)) (compensation_remove st) in
  let t := np_add (sum_x st) y in
  MeanState (pred (nobs st)) t
            (if signbit val then pred (neg_ct st) else neg_ct st)
            (compensation_add st)
            (np_sub (np_sub t (sum_x st)) y)
            (num_consecutive_same_value st)
            (prev_value st).

Definition calc_mean (minp : nat) (st : mean_state) : cell :=
  if (minp <=? nobs st) && (0 <? nobs st) then
    let result := np_div_count (sum_x st) (nobs st) in
    if nobs st <=? num_consecutive_same_value st then Finite (prev_value st)
    else if (neg_ct st =? 0) && np_negative result then Finite 0
    else if (neg_ct st =? nobs st) && np_positive result then Finite 0
    else result
  else NaN.

(** Bounds of the fixed window that ends at row [i] (closed on the right):
    [start = max (i + 1 - w) 0], [end = i + 1]. *)
Definition win_start (w i : nat) : nat := i + 1 - w.
Definition win_end (i : nat) : nat := i + 1.

(** The state a window is set up from; [values[s]] is a row of the table
    whenever the window has a row. *)
Definition setup (values : list num) (s : nat) : mean_state :=
  MeanState 0 (Finite 0) 0 (Finite 0) (Finite 0) 0 (nth s values (Num 0)).

(** One pass over the rows: the first window (and any window that does not
    overlap the previous one) is summed from scratch, every other window is
    obtained from the previous one by removing the rows that left and
    adding the rows that entered. *)
Fixpoint roll_mean_loop (values : list num) (w minp : nat)
         (idx : list nat) (st : mean_state) : list cell :=
  match idx with
  | [] => []
  | i :: idx' =>
      let s := win_start w i in
      let e := win_end i in
      let st' :=
        if (i =? 0) || (win_end (i - 1) <=? s)
        then foldl add_mean (setup values s) (slice s e values)
        else foldl add_mean
               (foldl remove_mean st (slice (win_start w (i - 1)) s values))
               (slice (win_end (i - 1)) e values) in
      calc_mean minp st' :: roll_mean_loop values w minp idx' st'
  end.

Definition roll_mean (values : list num) (w minp : nat) : list cell :=
  roll_mean_loop values w minp (seq 0 (length values)) (setup values 0).

(** [series.rolling(window=w).mean()]: [min_periods] defaults to the
    window size. *)
Definition rolling_mean (window : nat) (values : list num) : list cell :=
  roll_mean values window window.

End Rolling.

Module Ewm.

(** [com] from [span]: [(span - 1) / 2]. *)
Definition get_center_of_mass (span : Q) : Q := ((span - 1) / 2)%Q.

(** The loop of pandas' [ewm], as [mean] runs it (normalised): [weighted] is
    the running average, [old_wt] the weight it carries.  The input cells are
    numbers, so the branches of the library for a missing input are left
    out; each step is a weighted average of two values of the table, which
    stays within their range, so no result leaves the float64 range. *)
Fixpoint ewm_loop (old_wt_factor new_wt : Q) (adjust : bool) (minp : nat)
         (vals : list num) (weighted old_wt : Q) (nobs : nat) : list cell :=
  match vals with
  | [] => []
  | cur :: vals' =>
      let nobs' := S nobs in
      let old_wt1 := (old_wt * old_wt_factor)%Q in
      let weighted' :=
        if Qeq_bool weighted cur then weighted
        else ((old_wt1 * weighted + new_wt * cur) / (old_wt1 + new_wt))%Q in
      let old_wt' := if adjust then (old_wt1 + new_wt)%Q else 1%Q in
      (if minp <=? nobs' then Finite weighted' else NaN)
        :: ewm_loop old_wt_factor new_wt adjust minp vals' weighted' old_wt' nobs'
  end.

Definition ewm (vals : list num) (com : Q) (adjust : bool) (minp : nat) : list cell :=
  let alpha := (1 / (1 + com))%Q in
  let old_wt_factor := (1 - alpha)%Q in
  let new_wt := if adjust then 1%Q else alpha in
  match vals with
  | [] => []
  | v0 :: rest =>
      (if minp <=? 1 then Finite v0 else NaN)
        :: ewm_loop old_wt_factor new_wt adjust minp rest v0 1 1
  end.

(** [series.ewm(span=span, adjust=adjust).mean()]: [min_periods] is 0 by
    default and the mean asks for at least one observation. *)
Definition ewm_mean (span : Q) (adjust : bool) (values : list num) : list cell :=
  ewm values (get_center_of_mass span) adjust (Nat.max 0 1).

End Ewm.

(** ** The table *)

(** One observation of the provider: a timestamp and the five OHLCV numbers. *)
Record Row : Type := mkRow {
  ts : Z;
  Open : num;
  High : num;
  Low : num;
  Close : num;
  Volume : num
}.

(** The DataFrame: the provider's rows, in order, and the derived columns,
    each of which is absent ([None]) until it is assigned. *)
Record DataFrame : Type := mkDataFrame {
  rows : list Row;
  SMA20 : option (list cell);
  EMA20 : option (list cell)
}.

(** [df.index] and [df['Open']], ..., [df['Volume']] *)
Definition index (df : DataFrame) : list Z := map ts (rows df).
Definition column (f : Row -> num) (df : DataFrame) : list num := map f (rows df).

(** ** What the script shows and asks for *)

Inductive trace : Type :=
| Candlestick (x : list Z) (open high low close : list num) (name : string)
| Scatter (x : list Z) (y : list cell) (color : string) (width : Q) (name : string).

Record Figure : Type := mkFigure {
  data : list trace;
  title : string;
  xaxis_rangeslider_visible : bool;
  template : string;
  height : nat
}.

Inductive event : Type :=
| SetPageConfig (page_title layout : string)
| Title (text : string)
| History (ticker period interval : string)
| Warning (text : string)
| Error (text : string)
| Metric (col : nat) (label : string) (shown_value : num)
         (delta : option (npfloat * npfloat))
| PlotlyChart (fig : Figure)
| Subheader (text : string)
| Dataframe (shown_rows : DataFrame)
| Markdown (seconds_left : nat)
| Sleep (seconds : nat).
(** ** Effects: a heap of DataFrames, the events so far, exceptions *)

Inductive exn : Type :=
| IndexError (msg : string)
| ProviderError (msg : string).

Definition exn_str (e : exn) : string :=
  match e with
  | IndexError msg => msg
  | ProviderError msg => msg
  end.

(** How a computation ends: with a value, with an exception that
    [except Exception] catches, with the host's rerun request (a control-flow
    signal that [except Exception] does not catch), or stuck on a reference
    that denotes no object (which no run of the script reaches). *)
Inductive result (A : Type) : Type :=
| Ok (a : A)
| Raise (e : exn)
| Rerun
| Stuck.
Arguments Ok {A} a.
Arguments Raise {A} e.
Arguments Rerun {A}.
Arguments Stuck {A}.

Definition ref : Type := nat.

Record world : Type := mkWorld {
  heap : gmap nat DataFrame;
  next : ref;
  shown : list event
}.

Definition M (A : Type) : Type := world -> result A * world.

Definition ret {A} (a : A) : M A := fun w => (Ok a, w).

Definition bind {A B} (c : M A) (k : A -> M B) : M B :=
  fun w =>
    match c w with
    | (Ok a, w') => k a w'
    | (Raise e, w') => (Raise e, w')
    | (Rerun, w') => (Rerun, w')
    | (Stuck, w') => (Stuck, w')
    end.

Notation "'let!' x ':=' c 'in' k" := (bind c (fun x => k))
  (at level 10, x name, c at level 100, k at level 200).
Notation "'run!' c 'in' k" := (bind c (fun _ => k))
  (at level 10, c at level 100, k at level 200).

Definition raise {A} (e : exn) : M A := fun w => (Raise e, w).

(** [try: body  except Exception as e: handler e] *)
Definition try_except (body : M unit) (handler : exn -> M unit) : M unit :=
  fun w =>
    match body w with
    | (Raise e, w') => handler e w'
    | r => r
    end.

Definition emit (e : event) : M unit :=
  fun w => (Ok tt, mkWorld (heap w) (next w) (shown w ++ [e])).

Definition alloc (df : DataFrame) : M ref :=
  fun w => (Ok (next w), mkWorld (<[next w := df]> (heap w)) (S (next w)) (shown w)).

Definition load (r : ref) : M DataFrame :=
  fun w => match heap w !! r with
           | Some df => (Ok df, w)
           | None => (Stuck, w)
           end.

Definition store (r : ref) (df : DataFrame) : M unit :=
  fun w => (Ok tt, mkWorld (<[r := df]> (heap w)) (next w) (shown w)).

Fixpoint for_each {A} (l : list A) (body : A -> M unit) : M unit :=
  match l with
  | [] => ret tt
  | x :: l' => run! body x in for_each l' body
  end.

(** ** pandas operations the script uses *)

(** [df[name]] for a provider column *)
Definition getitem (df : ref) (f : Row -> num) : M (list num) :=
  let! d := load df in ret (column f d).

(** [df['SMA20'] = values] and [df['EMA20'] = values]: assignment in place *)
Definition setitem_SMA20 (df : ref) (values : list cell) : M unit :=
  let! d := load df in store df (mkDataFrame (rows d) (Some values) (EMA20 d)).

Definition setitem_EMA20 (df : ref) (values : list cell) : M unit :=
  let! d := load df in store df (mkDataFrame (rows d) (SMA20 d) (Some values)).

(** [df.empty] *)
Definition empty (df : ref) : M bool :=
  let! d := load df in ret (match rows d with [] => true | _ => false end).

(** [series.iloc[k]]: a negative position counts from the end; a position
    outside the series raises [IndexError]. *)
Definition iloc {A} (values : list A) (k : Z) : M A :=
  let n := Z.of_nat (length values) in
  let k' := if (k <? 0)%Z then (k + n)%Z else k in
  if (0 <=? k')%Z && (k' <? n)%Z then
    match values !! Z.to_nat k' with
    | Some v => ret v
    | None => raise (IndexError "single positional indexer is out-of-bounds")
    end
  else raise (IndexError "single positional indexer is out-of-bounds").

Definition last_n {A} (n : nat) (l : list A) : list A := drop (length l - n) l.

(** [df.tail()]: a new table with the last five rows of every column. *)
Definition tail_of (d : DataFrame) : DataFrame :=
  mkDataFrame (last_n 5 (rows d)) (last_n 5 <$> SMA20 d) (last_n 5 <$> EMA20 d).

Definition tail (df : ref) : M DataFrame :=
  let! d := load df in ret (tail_of d).

(** ** The functions of app.py *)

(** The external market-data provider, [yf.Ticker(ticker).history(...)]:
    it answers with rows (possibly none) or raises with a message. *)
Definition provider : Type := string -> string -> string -> string + list Row.

Definition default_period : string := "1d".
Definition default_interval : string := "1m".

Definition get_stock_data (yf : provider) (ticker period interval : string) : M ref :=
  run! emit (History ticker period interval) in
  match yf ticker period interval with
  | inl msg => raise (ProviderError msg)
  | inr rws => alloc (mkDataFrame rws None None)
  end.

Definition add_indicators (df : ref) : M ref :=
  let! close := getitem df Close in
  run! setitem_SMA20 df (Rolling.rolling_mean 20 close) in
  let! close := getitem df Close in
  run! setitem_EMA20 df (Ewm.ewm_mean 20 false close) in
  ret df.

(** The figure [plot_candlestick] builds from the table it is given. *)
Definition figure_of (d : DataFrame) (ticker : string) : Figure :=
  let fig := [Candlestick (index d) (column Open d) (column High d)
                          (column Low d) (column Close d) "Price"] in
  let fig := match SMA20 d with
             | Some y => fig ++ [Scatter (index d) y "orange" (3 # 2) "SMA 20"]
             | None => fig
             end in
  let fig := match EMA20 d with
             | Some y => fig ++ [Scatter (index d) y "blue" (3 # 2) "EMA 20"]
             | None => fig
             end in
  mkFigure fig (ticker ++ " - Real-Time Candlestick Chart")%string
           false "plotly_dark" 600.

Definition plot_candlestick (df : ref) (ticker : string) : M Figure :=
  let! d := load df in ret (figure_of d ticker).

(** [str.upper()] on ASCII text: the letters a to z become A to Z, every
    other character is kept. *)
Definition upper_ascii (c : ascii) : ascii :=
  let n := nat_of_ascii c in
  if (97 <=? n) && (n <=? 122) then ascii_of_nat (n - 32) else c.

Fixpoint upper (s : string) : string :=
  match s with
  | EmptyString => EmptyString
  | String c s' => String (upper_ascii c) (upper s')
  end.

(** [range(n, 0, -1)] *)
Definition range_down (n : nat) : list nat := rev (seq 1 n).

(** [st.experimental_rerun()] *)
Definition experimental_rerun : M unit := fun w => (Rerun, w).

(** The script, run once per cycle.  The two sidebar widgets supply
    [ticker_input] and [refresh_rate] (the slider keeps the latter between 5
    and 60); the placeholder created before the data is loaded is where the
    [Markdown] events of the countdown are written.  [str_upper] is Python's
    [str.upper]. *)
Definition app_with (str_upper : string -> string) (yf : provider)
           (ticker_input : string) (refresh_rate : nat) : M unit :=
  run! emit (SetPageConfig "Stock Dashboard" "wide") in
  run! emit (Title "📈 Real-Time Stock Market Dashboard") in
  let ticker := str_upper ticker_input in
  try_except
    (let! df := get_stock_data yf ticker default_period default_interval in
     let! is_empty := empty df in
     if is_empty then
       emit (Warning "No data available. Try a different ticker or interval.")
     else
       let! df := add_indicators df in
       let! close := getitem df Close in
       let! latest_close := iloc close (-1) in
       let! close := getitem df Close in
       let! prev_close := iloc close (-2) in
       let change := np_sub (Finite latest_close) (Finite prev_close) in
       let pct_change := np_mul (np_truediv change prev_close) 100 in
       run! emit (Metric 1 "Latest Price" latest_close (Some (change, pct_change))) in
       let! high := getitem df High in
       let! day_high := iloc high (-1) in
       run! emit (Metric 2 "Day High" day_high None) in
       let! low := getitem df Low in
       let! day_low := iloc low (-1) in
       run! emit (Metric 3 "Day Low" day_low None) in
       let! fig := plot_candlestick df ticker in
       run! emit (PlotlyChart fig) in
       run! emit (Subheader "📊 Latest Data") in
       let! t := tail df in
       run! emit (Dataframe t) in
       run! for_each (range_down refresh_rate)
              (fun i => run! emit (Markdown i) in emit (Sleep 1)) in
       experimental_rerun)
    (fun e => emit (Error ("Error: " ++ exn_str e)%string)).

(** The script on ASCII tickers. *)
Definition app (yf : provider) (ticker_input : string) (refresh_rate : nat) : M unit :=
  app_with upper yf ticker_input refresh_rate.

(** A cycle starts from nothing: no object, nothing shown. *)
Definition initial : world := mkWorld ∅ 0 [].

Definition run_cycle_with (str_upper : string -> string) (yf : provider)
           (ticker_input : string) (refresh_rate : nat) : result unit * world :=
  app_with str_upper yf ticker_input refresh_rate initial.

Definition run_cycle (yf : provider) (ticker_input : string) (refresh_rate : nat)
  : result unit * world :=
  app yf ticker_input refresh_rate initial.

(** ** Vocabulary of the statements *)

Definition Qsum (l : list Q) : Q := foldr Qplus 0%Q l.

(** The mean of Close over rows [i-19 .. i]. *)
Definition window_mean (close : list num) (i : nat) : Q :=
  (Qsum (value <$> slice (i - 19) (i + 1) close) / 20)%Q.

(** Closes up to this magnitude keep every sum of twenty of them within the
    float64 range, with room for rounding. *)
Definition safe_close : Q := inject_Z (2 ^ 1019).

(** The table an indicator computation leaves behind. *)
Definition augmented (d : DataFrame) : DataFrame :=
  mkDataFrame (rows d)
              (Some (Rolling.rolling_mean 20 (column Close d)))
              (Some (Ewm.ewm_mean 20 false (column Close d))).

(** The table as the provider delivers it. *)
Definition fresh_table (rws : list Row) : DataFrame := mkDataFrame rws None None.

Module RollingSpec.
Import Rolling.

(** The number of values with the sign bit set. *)
Definition count_neg (l : list num) : nat := length (List.filter signbit l).

(** The state describes the rows [s .. e-1] of [values] exactly: no sum has
    left the float64 range, so the sum is the sum of the window and the
    compensation terms are zero. *)
Definition tracks (values : list num) (w : nat) (st : mean_state) (s e : nat) : Prop :=
  s <= e /\ e <= length values /\ e - s <= w
  /\ nobs st = e - s
  /\ (exists x, sum_x st = Finite x /\ (x == Qsum (value <$> slice s e values))%Q)
  /\ (exists c, compensation_add st = Finite c /\ (c == 0)%Q)
  /\ (exists c, compensation_remove st = Finite c /\ (c == 0)%Q)
  /\ neg_ct st = count_neg (slice s e values)
  /\ (forall j v, e - num_consecutive_same_value st <= j -> j < e ->
         values !! j = Some v -> (value v == value (prev_value st))%Q).

(** The state counts the rows [s .. e-1]. *)
Definition counts (st : mean_state) (s e : nat) : Prop := nobs st = e - s.

End RollingSpec.

(** What every cycle shows first. *)
Definition page_header : list event :=
  [SetPageConfig "Stock Dashboard" "wide";
   Title "📈 Real-Time Stock Market Dashboard"].

(** What the countdown from [n] shows. *)
Definition countdown_events (n : nat) : list event :=
  flat_map (fun i => [Markdown i; Sleep 1]) (range_down n).

(** The events of the presentation of a table whose last two rows are
    [rp] and [rl]. *)
Definition presentation (d : DataFrame) (ticker : string) (rp rl : Row) : list event :=
  [Metric 1 "Latest Price" (Close rl)
     (Some (np_sub (Finite (Close rl)) (Finite (Close rp)),
            np_mul (np_truediv (np_sub (Finite (Close rl)) (Finite (Close rp)))
                      (Close rp)) 100));
   Metric 2 "Day High" (High rl) None;
   Metric 3 "Day Low" (Low rl) None;
   PlotlyChart (figure_of d ticker);
   Subheader "📊 Latest Data";
   Dataframe (tail_of d)].

Definition is_countdown (e : event) : bool :=
  match e with
  | Markdown _ | Sleep _ => true
  | _ => false
  end.

Definition is_rendering (e : event) : bool :=
  match e with
  | Metric _ _ _ _ | PlotlyChart _ | Dataframe _ | Subheader _ => true
  | _ => false
  end.

Definition is_error (e : event) : bool :=
  match e with
  | Error _ => true
  | _ => false
  end.

(** The trace count as the specification words it: the candlestick, plus one
    overlay per indicator column that is present and not entirely missing. *)
Definition entirely_undefined (y : list cell) : bool :=
  forallb (fun c => match c with NaN => true | _ => false end) y.

Definition spec_overlay (col : option (list cell)) : nat :=
  match col with
  | Some y => if entirely_undefined y then 0 else 1
  | None => 0
  end.

Definition spec_trace_count (d : DataFrame) : nat :=
  1 + spec_overlay (SMA20 d) + spec_overlay (EMA20 d).

(** The trace count by presence of the column alone. *)
Definition present (col : option (list cell)) : nat :=
  match col with
  | Some _ => 1
  | None => 0
  end.

(** ** Sample inputs *)

(** A row whose prices are all derived from its close [c], at time [t]. *)
Definition sample_row (t : Z) (c : Q) : Row :=
  mkRow t (Num c) (Num (c + 1)) (Num (c - 1)) (Num c) (Num 1000).

(** [n] rows with closes 1, 2, ..., n. *)
Definition sample_rows (n : nat) : list Row :=
  map (fun i => sample_row (Z.of_nat i) (inject_Z (Z.of_nat i))) (seq 1 n).

(** The world that holds one table, at reference 0. *)
Definition holding (d : DataFrame) : world := mkWorld (<[0 := d]> ∅) 1 [].

(** Providers with a fixed answer. *)
Definition yf_rows (rws : list Row) : provider := fun _ _ _ => inr rws.
Definition yf_fails (msg : string) : provider := fun _ _ _ => inl msg.

(** Twenty-one rows whose closes are the float64 values from 2^1023 on, one
    unit in the last place apart. *)
Definition huge_rows : list Row :=
  map (fun i => sample_row (Z.of_nat i) (inject_Z (2 ^ 1023 + Z.of_nat i * 2 ^ 971)))
      (seq 0 21).

(** The ASCII letters, in order. *)
Definition lower_letters : list ascii := list_ascii_of_string "abcdefghijklmnopqrstuvwxyz".
Definition upper_letters : list ascii := list_ascii_of_string "ABCDEFGHIJKLMNOPQRSTUVWXYZ".

Definition is_ascii (c : ascii) : bool := nat_of_ascii c <? 128.

(** ** Vocabulary of the further properties *)

Definition is_metric (e : event) : bool :=
  match e with
  | Metric _ _ _ _ => true
  | _ => false
  end.

(** The seconds an event makes the script wait. *)
Definition slept (e : event) : nat :=
  match e with
  | Sleep s => s
  | _ => 0
  end.

(** A trace has as many values, in each of its series, as it has points on
    the time axis. *)
Definition trace_aligned (t : trace) : Prop :=
  match t with
  | Candlestick x o h l c _ =>
      length o = length x /\ length h = length x
      /\ length l = length x /\ length c = length x
  | Scatter x y _ _ _ => length y = length x
  end.

Definition trace_x (t : trace) : list Z :=
  match t with
  | Candlestick x _ _ _ _ _ => x
  | Scatter x _ _ _ _ => x
  end.

Definition chars (s : string) : list ascii := list_ascii_of_string s.

(** * Properties *)

(** ** Sums over slices *)

Lemma Qsum_app (l1 l2 : list Q) : (Qsum (l1 ++ l2) == Qsum l1 + Qsum l2)%Q.
Proof.
  induction l1 as [|x l1 IH]; simpl.
  - ring.
  - rewrite IH. ring.
Qed.

Lemma slice_length {A} (a b : nat) (l : list A) :
  b <= length l -> length (slice a b l) = b - a.
Proof.
  intros Hb. unfold slice. rewrite length_take, length_drop. lia.
Qed.

Lemma slice_split {A} (a b c : nat) (l : list A) :
  a <= b -> b <= c -> slice a c l = slice a b l ++ slice b c l.
Proof.
  intros Hab Hbc. unfold slice.
  replace (c - a) with ((b - a) + (c - b)) by lia.
  rewrite <- take_take_drop. f_equal.
  rewrite drop_drop. do 2 f_equal. lia.
Qed.

Lemma slice_empty {A} (a : nat) (l : list A) : slice a a l = [].
Proof. unfold slice. rewrite Nat.sub_diag. apply take_0. Qed.

Lemma slice_singleton {A} (a : nat) (l : list A) (x : A) :
  l !! a = Some x -> slice a (S a) l = [x].
Proof.
  intros H. unfold slice. replace (S a - a) with 1 by lia.
  rewrite (drop_S l x a H). reflexivity.
Qed.

(** A slice that is not empty starts with the row at its lower bound. *)
Lemma slice_cons {A} (a b : nat) (l : list A) :
  a < b -> b <= length l ->
  exists x, l !! a = Some x /\ slice a b l = x :: slice (S a) b l.
Proof.
  intros Hab Hb.
  destruct (lookup_lt_is_Some_2 l a ltac:(lia)) as [x Hx].
  exists x. split; [exact Hx|].
  rewrite (slice_split a (S a) b) by lia.
  rewrite (slice_singleton a l x Hx). reflexivity.
Qed.

Lemma slice_subseteq {A} (a b : nat) (l : list A) (x : A) :
  x ∈ slice a b l -> x ∈ l.
Proof.
  unfold slice. intros H. apply (subseteq_drop a l), (subseteq_take (b - a)), H.
Qed.

Lemma Qsum_slice_split (a b c : nat) (l : list num) :
  a <= b -> b <= c ->
  (Qsum (value <$> slice a c l)
   == Qsum (value <$> slice a b l) + Qsum (value <$> slice b c l))%Q.
Proof.
  intros Hab Hbc. rewrite (slice_split a b c) by assumption.
  rewrite fmap_app. apply Qsum_app.
Qed.

Lemma Qsum_bounds (l : list num) (lo hi : Q) :
  (forall c : num, c ∈ l -> (lo <= c)%Q /\ (c <= hi)%Q) ->
  (inject_Z (Z.of_nat (length l)) * lo <= Qsum (value <$> l))%Q
  /\ (Qsum (value <$> l) <= inject_Z (Z.of_nat (length l)) * hi)%Q.
Proof.
  induction l as [|x l IH]; intros Hall.
  - cbn [length Qsum foldr fmap list_fmap]. change (inject_Z (Z.of_nat 0)) with 0%Q.
    split; lra.
  - destruct (Hall x ltac:(left)) as [Hx1 Hx2].
    destruct IH as [IH1 IH2]; [intros c Hc; apply Hall; right; exact Hc|].
    cbn [length Qsum foldr fmap list_fmap]. fold (Qsum (value <$> l)).
    rewrite Nat2Z.inj_succ, <- Z.add_1_r, inject_Z_plus.
    change (inject_Z 1) with 1%Q. split; lra.
Qed.

(** ** Arithmetic within the float64 range *)

Lemma fl_in_range (q : Q) :
  (- float_overflow < q)%Q -> (q < float_overflow)%Q -> fl q = Finite q.
Proof.
  intros Hlo Hhi. unfold fl.
  destruct (Qle_bool float_overflow q) eqn:E1.
  { apply Qle_bool_iff in E1. lra. }
  destruct (Qle_bool q (- float_overflow)) eqn:E2.
  { apply Qle_bool_iff in E2. lra. }
  reflexivity.
Qed.

Lemma fl_cases (q : Q) :
  (fl q = PosInf /\ (float_overflow <= q)%Q)
  \/ (fl q = NegInf /\ (q <= - float_overflow)%Q)
  \/ fl q = Finite q.
Proof.
  unfold fl.
  destruct (Qle_bool float_overflow q) eqn:E1.
  { apply Qle_bool_iff in E1. left. split; [reflexivity | exact E1]. }
  destruct (Qle_bool q (- float_overflow)) eqn:E2.
  { apply Qle_bool_iff in E2. right. left. split; [reflexivity | exact E2]. }
  right. right. reflexivity.
Qed.

Lemma float_overflow_positive : (0 < float_overflow)%Q.
Proof. reflexivity. Qed.

Lemma safe_close_room : (20 * safe_close < float_overflow)%Q.
Proof. reflexivity. Qed.

Lemma signbit_false_nonneg (v : num) : signbit v = false -> (0 <= v)%Q.
Proof.
  destruct v as [q|]; simpl; [|discriminate].
  intros H. apply negb_false_iff, Qle_bool_iff in H. exact H.
Qed.

Lemma signbit_true_nonpos (v : num) : signbit v = true -> (v <= 0)%Q.
Proof.
  destruct v as [q|]; simpl; [|intros _; lra].
  intros H. apply negb_true_iff in H.
  destruct (Qlt_le_dec q 0) as [Hlt|Hge]; [lra|].
  apply Qle_bool_iff in Hge. congruence.
Qed.

(** ** The rolling mean *)

Module RollingFacts.
Import Rolling RollingSpec.

(** *** What holds for every input: the count of observations *)

Lemma foldl_add_mean_nobs (l : list num) (st : mean_state) :
  nobs (foldl add_mean st l) = nobs st + length l.
Proof.
  revert st. induction l as [|x l IH]; intros st; simpl; [lia|].
  rewrite IH. simpl. lia.
Qed.

Lemma foldl_remove_mean_nobs (l : list num) (st : mean_state) :
  nobs (foldl remove_mean st l) = nobs st - length l.
Proof.
  revert st. induction l as [|x l IH]; intros st; simpl; [lia|].
  rewrite IH. simpl. lia.
Qed.

(** An invariant of the windows is an invariant of the pass: if setting up
    a window establishes [P] and sliding to the next window preserves it,
    every cell of the pass is computed from a state that satisfies [P] for
    its window. *)
Lemma roll_mean_loop_invariant (values : list num) (w minp : nat)
      (P : mean_state -> nat -> nat -> Prop) :
  (forall i, i < length values ->
     P (foldl add_mean (setup values (win_start w i))
          (slice (win_start w i) (win_end i) values))
       (win_start w i) (win_end i)) ->
  (forall i st, 0 < i -> i < length values -> win_start w i < win_end (i - 1) ->
     P st (win_start w (i - 1)) (win_end (i - 1)) ->
     P (foldl add_mean
          (foldl remove_mean st (slice (win_start w (i - 1)) (win_start w i) values))
          (slice (win_end (i - 1)) (win_end i) values))
       (win_start w i) (win_end i)) ->
  forall (n k : nat) (st : mean_state),
    k + n <= length values ->
    (k = 0 \/ P st (win_start w (k - 1)) (win_end (k - 1))) ->
    forall j, j < n ->
      exists st',
        roll_mean_loop values w minp (seq k n) st !! j = Some (calc_mean minp st')
        /\ P st' (win_start w (k + j)) (win_end (k + j)).
Proof.
  intros Hsetup Hslide. induction n as [|n IH]; intros k st Hk Hst j Hj; [lia|].
  cbn [seq roll_mean_loop]. cbn zeta.
  set (st1 := if (k =? 0) || (win_end (k - 1) <=? win_start w k) then _ else _).
  assert (Hst1 : P st1 (win_start w k) (win_end k)).
  { unfold st1.
    destruct ((k =? 0) || (win_end (k - 1) <=? win_start w k)) eqn:Htest.
    - apply Hsetup. lia.
    - apply orb_false_iff in Htest as [Hk0 Hov].
      apply Nat.eqb_neq in Hk0. apply Nat.leb_gt in Hov.
      destruct Hst as [->|Hst]; [lia|].
      apply Hslide; [lia | lia | exact Hov | exact Hst]. }
  destruct j as [|j].
  - exists st1. rewrite Nat.add_0_r. split; [reflexivity | exact Hst1].
  - cbn [lookup list_lookup].
    assert (Hnext : S k = 0 \/ P st1 (win_start w (S k - 1)) (win_end (S k - 1))).
    { right. replace (S k - 1) with k by lia. exact Hst1. }
    destruct (IH (S k) st1 ltac:(lia) Hnext j ltac:(lia)) as (st' & Hl & HP).
    exists st'. split; [exact Hl|].
    replace (k + S j) with (S k + j) by lia. exact HP.
Qed.

Lemma roll_mean_loop_length (values : list num) (w minp : nat) (idx : list nat) :
  forall st, length (roll_mean_loop values w minp idx st) = length idx.
Proof.
  induction idx as [|i idx IH]; intros st; [reflexivity|].
  cbn [roll_mean_loop length]. cbn zeta. rewrite IH. reflexivity.
Qed.

Lemma roll_mean_length (values : list num) (w minp : nat) :
  length (roll_mean values w minp) = length values.
Proof. unfold roll_mean. rewrite roll_mean_loop_length. apply length_seq. Qed.

(** Every cell comes from a state that counts the rows of its window. *)
Lemma roll_mean_counts (values : list num) (w minp i : nat) :
  i < length values ->
  exists st,
    roll_mean values w minp !! i = Some (calc_mean minp st)
    /\ counts st (win_start w i) (win_end i).
Proof.
  intros Hi. unfold roll_mean.
  assert (Hsetup : forall k, k < length values ->
            counts (foldl add_mean (setup values (win_start w k))
                      (slice (win_start w k) (win_end k) values))
                   (win_start w k) (win_end k)).
  { intros k Hk. unfold counts. rewrite foldl_add_mean_nobs.
    rewrite slice_length by (unfold win_end; lia). reflexivity. }
  assert (Hslide : forall k st, 0 < k -> k < length values ->
            win_start w k < win_end (k - 1) ->
            counts st (win_start w (k - 1)) (win_end (k - 1)) ->
            counts (foldl add_mean
                      (foldl remove_mean st
                         (slice (win_start w (k - 1)) (win_start w k) values))
                      (slice (win_end (k - 1)) (win_end k) values))
                   (win_start w k) (win_end k)).
  { intros k st Hk0 Hk Hov Hst. unfold counts in *.
    rewrite foldl_add_mean_nobs, foldl_remove_mean_nobs, Hst.
    rewrite !slice_length by (unfold win_start, win_end in *; lia).
    unfold win_start, win_end in *. lia. }
  destruct (roll_mean_loop_invariant values w minp counts Hsetup Hslide
              (length values) 0 (setup values 0) ltac:(lia) (or_introl eq_refl) i Hi)
    as (st & Hl & HP).
  exists st. split; assumption.
Qed.

(** A window with fewer rows than [minp] gives a missing value. *)
Lemma roll_mean_short_window (values : list num) (w minp i : nat) :
  i < length values -> win_end i - win_start w i < minp ->
  roll_mean values w minp !! i = Some NaN.
Proof.
  intros Hi Hshort.
  destruct (roll_mean_counts values w minp i Hi) as (st & Hl & Hc).
  rewrite Hl. f_equal. unfold calc_mean. unfold counts in Hc. rewrite Hc.
  destruct (minp <=? win_end i - win_start w i) eqn:E; [|reflexivity].
  apply Nat.leb_le in E. lia.
Qed.

(** *** What holds while the sums stay within the float64 range *)

Lemma filter_all_length {A} (f : A -> bool) (l : list A) :
  length (List.filter f l) = length l -> forall c, In c l -> f c = true.
Proof.
  induction l as [|a l IH]; intros Hlen c Hc; [destruct Hc|].
  pose proof (List.filter_length_le f l) as Hle.
  cbn [List.filter] in Hlen. destruct (f a) eqn:Ea; cbn [length] in Hlen.
  - destruct Hc as [->|Hc]; [exact Ea | apply IH; [lia | exact Hc]].
  - lia.
Qed.

Section InRange.
Variable values : list num.
Variable w : nat.
Variable B : Q.
Hypothesis B_bounds : forall v : num, v ∈ values -> (- B <= v)%Q /\ (v <= B)%Q.
Hypothesis B_room : (inject_Z (Z.of_nat w) * B < float_overflow)%Q.

Lemma B_nonneg : values <> [] -> (0 <= B)%Q.
Proof.
  destruct values as [|v l]; [congruence|]. intros _.
  destruct (B_bounds v ltac:(left)). lra.
Qed.

(** The sum of any window of at most [w] rows is within the range. *)
Lemma window_sum_in_range (s e : nat) :
  e <= length values -> 0 < e - s -> e - s <= w ->
  (- float_overflow < Qsum (value <$> slice s e values))%Q
  /\ (Qsum (value <$> slice s e values) < float_overflow)%Q.
Proof.
  intros He Hpos Hw.
  assert (HB : (0 <= B)%Q).
  { apply B_nonneg. intros E. rewrite E in He. simpl in He. lia. }
  destruct (Qsum_bounds (slice s e values) (- B) B) as [H1 H2].
  { intros c Hc. apply B_bounds, (slice_subseteq _ _ _ _ Hc). }
  rewrite slice_length in H1, H2 by exact He.
  assert (Hn : (inject_Z (Z.of_nat (e - s)) <= inject_Z (Z.of_nat w))%Q).
  { rewrite <- Zle_Qle. lia. }
  assert (Hm : (inject_Z (Z.of_nat (e - s)) * B <= inject_Z (Z.of_nat w) * B)%Q).
  { apply Qmult_le_compat_r; assumption. }
  split; lra.
Qed.

Lemma value_in_range (v : num) :
  v ∈ values -> 0 < w -> (- float_overflow < v)%Q /\ (v < float_overflow)%Q.
Proof.
  intros Hv Hw. destruct (B_bounds v Hv) as [H1 H2].
  assert (HB : (0 <= B)%Q) by lra.
  assert (Hn : (1 <= inject_Z (Z.of_nat w))%Q).
  { change 1%Q with (inject_Z 1). rewrite <- Zle_Qle. lia. }
  assert (Hm : (1 * B <= inject_Z (Z.of_nat w) * B)%Q).
  { apply Qmult_le_compat_r; assumption. }
  split; lra.
Qed.

Lemma count_neg_cons (x : num) (l : list num) :
  count_neg (x :: l) = (if signbit x then 1 else 0) + count_neg l.
Proof. unfold count_neg. simpl. destruct (signbit x); reflexivity. Qed.

Lemma count_neg_app (l1 l2 : list num) :
  count_neg (l1 ++ l2) = count_neg l1 + count_neg l2.
Proof. unfold count_neg. rewrite List.filter_app, length_app. reflexivity. Qed.

(** Adding the row that follows the window. *)
Lemma add_mean_tracks (st : mean_state) (s e : nat) (val : num) :
  tracks values w st s e -> values !! e = Some val -> S e - s <= w ->
  tracks values w (add_mean st val) s (S e).
Proof.
  intros (Hse & He & Hsz & Hn & (x & Hx & Ex) & (ca & Hca & Eca) & Hcr & Hneg & Hrun)
         Hval Hw.
  assert (HSe : S e <= length values) by (apply lookup_lt_Some in Hval; lia).
  assert (Hin : val ∈ values) by (apply list_elem_of_lookup; eauto).
  destruct (value_in_range val Hin ltac:(lia)) as [Hv1 Hv2].
  assert (Esplit : (Qsum (value <$> slice s (S e) values)
                    == Qsum (value <$> slice s e values) + val)%Q).
  { rewrite (Qsum_slice_split s e (S e)) by lia.
    rewrite (slice_singleton e values val Hval). simpl. ring. }
  destruct (window_sum_in_range s (S e) HSe ltac:(lia) Hw) as [Hs1 Hs2].
  unfold add_mean. rewrite Hx, Hca.
  unfold np_sub, np_add, np_neg.
  assert (Ey : fl (val + - ca) = Finite (val + - ca))
    by (apply fl_in_range; lra).
  rewrite Ey.
  assert (Et : fl (x + (val + - ca)) = Finite (x + (val + - ca)))
    by (apply fl_in_range; lra).
  rewrite Et.
  assert (Ed : fl (x + (val + - ca) + - x) = Finite (x + (val + - ca) + - x))
    by (apply fl_in_range; lra).
  rewrite Ed.
  assert (Ec : fl (x + (val + - ca) + - x + - (val + - ca))
               = Finite (x + (val + - ca) + - x + - (val + - ca)))
    by (apply fl_in_range; pose proof float_overflow_positive; lra).
  rewrite Ec.
  unfold tracks. cbn [nobs sum_x neg_ct compensation_add compensation_remove
                      num_consecutive_same_value prev_value].
  split; [lia|]. split; [exact HSe|]. split; [exact Hw|]. split; [lia|].
  split; [eexists; split; [reflexivity|]; lra|].
  split; [eexists; split; [reflexivity|]; lra|].
  split; [exact Hcr|].
  split.
  - rewrite (slice_split s e (S e)) by lia.
    rewrite (slice_singleton e values val Hval), count_neg_app, count_neg_cons, <- Hneg.
    unfold count_neg. simpl. destruct (signbit val); lia.
  - intros j v Hj1 Hj2 Hv.
    destruct (decide (j = e)) as [->|Hne].
    + rewrite Hval in Hv. injection Hv as <-. reflexivity.
    + destruct (Qeq_bool val (prev_value st)) eqn:Eq; [|lia].
      apply Qeq_bool_iff in Eq. rewrite Eq.
      apply (Hrun j v); [lia | lia | exact Hv].
Qed.

(** Removing the first row of the window. *)
Lemma remove_mean_tracks (st : mean_state) (s e : nat) (val : num) :
  tracks values w st s e -> values !! s = Some val -> s < e ->
  tracks values w (remove_mean st val) (S s) e.
Proof.
  intros (Hse & He & Hsz & Hn & (x & Hx & Ex) & Hca & (cr & Hcr & Ecr) & Hneg & Hrun)
         Hval Hlt.
  assert (Hin : val ∈ values) by (apply list_elem_of_lookup; eauto).
  destruct (value_in_range val Hin ltac:(lia)) as [Hv1 Hv2].
  assert (Esplit : (Qsum (value <$> slice s e values)
                    == val + Qsum (value <$> slice (S s) e values))%Q).
  { rewrite (Qsum_slice_split s (S s) e) by lia.
    rewrite (slice_singleton s values val Hval). simpl. ring. }
  assert (Hrest : (- float_overflow < Qsum (value <$> slice (S s) e values))%Q
                  /\ (Qsum (value <$> slice (S s) e values) < float_overflow)%Q).
  { destruct (decide (S s = e)) as [<-|Hne].
    - rewrite slice_empty. simpl. pose proof float_overflow_positive. split; lra.
    - apply window_sum_in_range; lia. }
  destruct Hrest as [Hr1 Hr2].
  unfold remove_mean. rewrite Hx, Hcr.
  unfold np_sub, np_add, np_neg.
  assert (Ey : fl (- val + - cr) = Finite (- val + - cr))
    by (apply fl_in_range; lra).
  rewrite Ey.
  assert (Et : fl (x + (- val + - cr)) = Finite (x + (- val + - cr)))
    by (apply fl_in_range; lra).
  rewrite Et.
  assert (Ed : fl (x + (- val + - cr) + - x) = Finite (x + (- val + - cr) + - x))
    by (apply fl_in_range; lra).
  rewrite Ed.
  assert (Ec : fl (x + (- val + - cr) + - x + - (- val + - cr))
               = Finite (x + (- val + - cr) + - x + - (- val + - cr)))
    by (apply fl_in_range; pose proof float_overflow_positive; lra).
  rewrite Ec.
  unfold tracks. cbn [nobs sum_x neg_ct compensation_add compensation_remove
                      num_consecutive_same_value prev_value].
  split; [lia|]. split; [exact He|]. split; [lia|]. split; [lia|].
  split; [eexists; split; [reflexivity|]; lra|].
  split; [exact Hca|].
  split; [eexists; split; [reflexivity|]; lra|].
  split.
  - rewrite (slice_split s (S s) e) in Hneg by lia.
    rewrite (slice_singleton s values val Hval), count_neg_app in Hneg.
    unfold count_neg in *. simpl in Hneg. destruct (signbit val); simpl in Hneg; lia.
  - exact Hrun.
Qed.

Lemma foldl_add_mean_tracks (k : nat) :
  forall (st : mean_state) (s e0 : nat),
    tracks values w st s e0 -> e0 + k <= length values -> e0 + k - s <= w ->
    tracks values w (foldl add_mean st (slice e0 (e0 + k) values)) s (e0 + k).
Proof.
  induction k as [|k IH]; intros st s e0 Hst He Hw.
  - rewrite Nat.add_0_r, slice_empty. exact Hst.
  - destruct (slice_cons e0 (e0 + S k) values ltac:(lia) He) as (v & Hv & ->).
    cbn [foldl]. replace (e0 + S k) with (S e0 + k) in * by lia.
    apply IH; [|lia|lia].
    apply add_mean_tracks; [exact Hst | exact Hv |].
    destruct Hst as (Hse & _). lia.
Qed.

Lemma foldl_remove_mean_tracks (k : nat) :
  forall (st : mean_state) (s0 e : nat),
    tracks values w st s0 e -> s0 + k <= e ->
    tracks values w (foldl remove_mean st (slice s0 (s0 + k) values)) (s0 + k) e.
Proof.
  induction k as [|k IH]; intros st s0 e Hst Hk.
  - rewrite Nat.add_0_r, slice_empty. exact Hst.
  - assert (He : e <= length values) by (destruct Hst as (_ & He & _); exact He).
    destruct (slice_cons s0 (s0 + S k) values ltac:(lia) ltac:(lia)) as (v & Hv & ->).
    cbn [foldl]. replace (s0 + S k) with (S s0 + k) in * by lia.
    apply IH; [|lia].
    apply remove_mean_tracks; [exact Hst | exact Hv | lia].
Qed.

Lemma setup_tracks (s : nat) :
  s <= length values -> tracks values w (setup values s) s s.
Proof.
  intros Hs. unfold tracks, setup.
  cbn [nobs sum_x neg_ct compensation_add compensation_remove
       num_consecutive_same_value prev_value].
  rewrite slice_empty.
  split; [lia|]. split; [exact Hs|]. split; [lia|]. split; [lia|].
  split; [exists 0%Q; split; reflexivity|].
  split; [exists 0%Q; split; reflexivity|].
  split; [exists 0%Q; split; reflexivity|].
  split; [reflexivity|].
  intros j v Hj1 Hj2. lia.
Qed.

(** Every cell of the pass comes from a state that describes its window
    exactly. *)
Lemma roll_mean_tracks (minp i : nat) :
  0 < w -> i < length values ->
  exists st,
    roll_mean values w minp !! i = Some (calc_mean minp st)
    /\ tracks values w st (win_start w i) (win_end i).
Proof.
  intros Hw Hi. unfold roll_mean.
  assert (Hsetup : forall k, k < length values ->
            tracks values w
              (foldl add_mean (setup values (win_start w k))
                 (slice (win_start w k) (win_end k) values))
              (win_start w k) (win_end k)).
  { intros k Hk.
    pose proof (foldl_add_mean_tracks (win_end k - win_start w k)
                  (setup values (win_start w k)) (win_start w k) (win_start w k)) as H.
    replace (win_start w k + (win_end k - win_start w k)) with (win_end k) in H
      by (unfold win_start, win_end; lia).
    apply H; [apply setup_tracks | |]; unfold win_start, win_end; lia. }
  assert (Hslide : forall k st, 0 < k -> k < length values ->
            win_start w k < win_end (k - 1) ->
            tracks values w st (win_start w (k - 1)) (win_end (k - 1)) ->
            tracks values w
              (foldl add_mean
                 (foldl remove_mean st
                    (slice (win_start w (k - 1)) (win_start w k) values))
                 (slice (win_end (k - 1)) (win_end k) values))
              (win_start w k) (win_end k)).
  { intros k st Hk0 Hk Hov Hst.
    pose proof (foldl_remove_mean_tracks (win_start w k - win_start w (k - 1))
                  st (win_start w (k - 1)) (win_end (k - 1)) Hst) as H1.
    replace (win_start w (k - 1) + (win_start w k - win_start w (k - 1)))
      with (win_start w k) in H1 by (unfold win_start; lia).
    specialize (H1 ltac:(lia)).
    pose proof (foldl_add_mean_tracks (win_end k - win_end (k - 1)) _
                  (win_start w k) (win_end (k - 1)) H1) as H2.
    replace (win_end (k - 1) + (win_end k - win_end (k - 1))) with (win_end k) in H2
      by (unfold win_end; lia).
    apply H2; unfold win_start, win_end; lia. }
  destruct (roll_mean_loop_invariant values w minp (tracks values w) Hsetup Hslide
              (length values) 0 (setup values 0) ltac:(lia) (or_introl eq_refl) i Hi)
    as (st & Hl & HP).
  exists st. split; assumption.
Qed.

(** A state that describes a window with enough rows gives the mean of the
    window. *)
Lemma calc_mean_tracks (minp : nat) (st : mean_state) (s e : nat) :
  tracks values w st s e -> minp <= e - s -> 0 < e - s ->
  exists v,
    calc_mean minp st = Finite v
    /\ (v == Qsum (value <$> slice s e values) / inject_Z (Z.of_nat (e - s)))%Q.
Proof.
  intros (Hse & He & Hsz & Hn & (x & Hx & Ex) & _ & _ & Hneg & Hrun) Hminp Hpos.
  destruct (window_sum_in_range s e He Hpos Hsz) as [Hs1 Hs2].
  set (n := inject_Z (Z.of_nat (e - s))).
  assert (Hn1 : (1 <= n)%Q).
  { unfold n. change 1%Q with (inject_Z 1). rewrite <- Zle_Qle. lia. }
  assert (Hinv : (0 < / n)%Q /\ (/ n <= 1)%Q).
  { assert (Hp : (0 < / n)%Q) by (apply Qinv_lt_0_compat; lra).
    split; [exact Hp|].
    assert (E1 : (n * / n == 1)%Q) by (apply Qmult_inv_r; lra).
    pose proof (Qmult_le_compat_r 1 n (/ n) Hn1 ltac:(lra)) as Hle. lra. }
  set (total := Qsum (value <$> slice s e values)) in *.
  assert (Hmean : (- float_overflow < x / n)%Q /\ (x / n < float_overflow)%Q).
  { unfold Qdiv. destruct Hinv as [Hi1 Hi2].
    pose proof float_overflow_positive as HT.
    destruct (Qlt_le_dec x 0) as [Hx0|Hx0].
    - assert (x <= x * / n)%Q by nra. assert (x * / n <= 0)%Q by nra. split; lra.
    - assert (x * / n <= x)%Q by nra. assert (0 <= x * / n)%Q by nra. split; lra. }
  unfold calc_mean. rewrite Hn.
  assert (Hguard : (minp <=? e - s) && (0 <? e - s) = true).
  { apply andb_true_iff. split; [apply Nat.leb_le | apply Nat.ltb_lt]; lia. }
  rewrite Hguard. cbn zeta. rewrite Hx. unfold np_div_count. fold n.
  rewrite (fl_in_range (x / n)) by apply Hmean.
  destruct (e - s <=? num_consecutive_same_value st) eqn:Erun.
  { apply Nat.leb_le in Erun.
    exists (value (prev_value st)). split; [reflexivity|].
    assert (Hall : forall c : num, c ∈ slice s e values ->
              (value (prev_value st) <= c)%Q /\ (c <= value (prev_value st))%Q).
    { intros c Hc. apply list_elem_of_lookup in Hc as [j Hj].
      unfold slice in Hj. apply lookup_take_Some in Hj as [Hj Hjlt].
      rewrite lookup_drop in Hj.
      pose proof (Hrun (s + j) c ltac:(lia) ltac:(lia) Hj) as E. lra. }
    destruct (Qsum_bounds _ _ _ Hall) as [H1 H2].
    rewrite slice_length in H1, H2 by exact He. fold n total in H1, H2.
    assert (Et : (total == n * value (prev_value st))%Q) by lra.
    rewrite Et. field. lra. }
  assert (Hres : (x / n == total / n)%Q) by (rewrite Ex; reflexivity).
  destruct ((neg_ct st =? 0) && np_negative (Finite (x / n))) eqn:Eneg.
  { apply andb_true_iff in Eneg as [E0 Elt]. apply Nat.eqb_eq in E0.
    simpl in Elt. apply negb_true_iff in Elt.
    assert (Hall : forall c : num, c ∈ slice s e values -> (0 <= c)%Q /\ (c <= B)%Q).
    { intros c Hc. split; [|apply B_bounds, (slice_subseteq _ _ _ _ Hc)].
      apply signbit_false_nonneg.
      destruct (signbit c) eqn:Esb; [|reflexivity].
      rewrite E0 in Hneg. unfold count_neg in Hneg. symmetry in Hneg.
      apply length_zero_iff_nil in Hneg.
      assert (Hcin : In c (List.filter signbit (slice s e values))).
      { apply filter_In. split; [apply list_elem_of_In, Hc | exact Esb]. }
      rewrite Hneg in Hcin. destruct Hcin. }
    destruct (Qsum_bounds _ _ _ Hall) as [H1 _]. fold total in H1.
    assert (0 <= x / n)%Q.
    { unfold Qdiv. destruct Hinv. assert (0 <= x)%Q by lra. nra. }
    apply Qle_bool_iff in H. congruence. }
  destruct ((neg_ct st =? e - s) && np_positive (Finite (x / n))) eqn:Epos.
  { apply andb_true_iff in Epos as [E0 Egt]. apply Nat.eqb_eq in E0.
    simpl in Egt. apply negb_true_iff in Egt.
    assert (Hall : forall c : num, c ∈ slice s e values -> (- B <= c)%Q /\ (c <= 0)%Q).
    { intros c Hc. split; [apply B_bounds, (slice_subseteq _ _ _ _ Hc)|].
      apply signbit_true_nonpos.
      destruct (signbit c) eqn:Esb; [reflexivity|].
      rewrite E0 in Hneg. unfold count_neg in Hneg.
      assert (Hlen : length (List.filter signbit (slice s e values))
                     = length (slice s e values))
        by (rewrite slice_length by exact He; lia).
      rewrite (filter_all_length signbit _ Hlen c (proj1 (list_elem_of_In _ _) Hc)) in Esb.
      discriminate Esb. }
    destruct (Qsum_bounds _ _ _ Hall) as [_ H2]. fold total in H2.
    assert (x / n <= 0)%Q.
    { unfold Qdiv. destruct Hinv. assert (x <= 0)%Q by lra. nra. }
    apply Qle_bool_iff in H. congruence. }
  exists (x / n)%Q. split; [reflexivity | exact Hres].
Qed.

End InRange.

End RollingFacts.

Module EwmFacts.
Import Ewm.

Lemma ewm_loop_length (f a : Q) (adjust : bool) (minp : nat) (vals : list num) :
  forall (wt old_wt : Q) (nobs : nat),
    length (ewm_loop f a adjust minp vals wt old_wt nobs) = length vals.
Proof.
  induction vals as [|cur vals IH]; intros wt old_wt nobs; simpl.
  - reflexivity.
  - rewrite IH. reflexivity.
Qed.

Lemma ewm_length (vals : list num) (com : Q) (adjust : bool) (minp : nat) :
  length (ewm vals com adjust minp) = length vals.
Proof.
  destruct vals as [|v0 rest]; simpl; [reflexivity|].
  rewrite ewm_loop_length. reflexivity.
Qed.

(** One step of the unadjusted loop is the textbook recurrence, whether the
    shortcut for an unchanged value is taken or not. *)
Lemma ewm_step (f a wt : Q) (cur : num) :
  (f + a == 1)%Q ->
  ((if Qeq_bool wt cur then wt
    else (1 * f * wt + a * cur) / (1 * f + a)) == a * cur + f * wt)%Q.
Proof.
  intros Hfa. destruct (Qeq_bool wt cur) eqn:E.
  - apply Qeq_bool_iff in E. rewrite <- E.
    transitivity ((f + a) * wt)%Q; [rewrite Hfa|]; ring.
  - assert (Hd : (1 * f + a == 1)%Q) by (rewrite <- Hfa at 2; ring).
    rewrite Hd. field.
Qed.

(** Every row of the unadjusted loop is defined and follows the recurrence
    from the row before it. *)
Lemma ewm_loop_spec (f a : Q) (minp : nat) (vals : list num) :
  (f + a == 1)%Q ->
  forall (wt : Q) (nobs : nat),
    minp <= S nobs ->
    let out := ewm_loop f a false minp vals wt 1 nobs in
    (forall i, i < length vals -> exists v, out !! i = Some (Finite v))
    /\ (forall c : num, vals !! 0 = Some c ->
          exists v, out !! 0 = Some (Finite v) /\ (v == a * c + f * wt)%Q)
    /\ (forall i (c : num) p, vals !! S i = Some c -> out !! i = Some (Finite p) ->
          exists v, out !! S i = Some (Finite v) /\ (v == a * c + f * p)%Q).
Proof.
  intros Hfa. induction vals as [|cur vals IH]; intros wt nobs Hminp; cbn zeta.
  - repeat split; intros; simpl in *; try lia; discriminate.
  - cbn [ewm_loop]. cbn zeta.
    apply Nat.leb_le in Hminp as Hb. rewrite Hb.
    set (wt' := if Qeq_bool wt cur then wt else _).
    destruct (IH wt' (S nobs) ltac:(lia)) as (Hdef & Hhead & Hrec).
    repeat split.
    + intros [|i] Hi; simpl in *; [eexists; reflexivity|].
      apply Hdef. lia.
    + intros c Hc. simpl in Hc. injection Hc as <-.
      exists wt'. split; [reflexivity|]. apply ewm_step, Hfa.
    + intros [|i] c p Hc Hp; simpl in *.
      * injection Hp as <-. apply Hhead, Hc.
      * apply (Hrec i c p Hc Hp).
Qed.

(** The smoothing factor of a 20-row span. *)
Lemma alpha_span_20 :
  (1 / (1 + get_center_of_mass 20) == 2 # 21)%Q
  /\ (1 - 1 / (1 + get_center_of_mass 20) == 19 # 21)%Q.
Proof. split; reflexivity. Qed.

(** The unadjusted exponential mean over a 20-row span: defined at every
    row, starts at the first value, then follows the recurrence with
    factors 2/21 and 19/21. *)
Lemma ewm_mean_20_spec (vals : list num) :
  let out := ewm_mean 20 false vals in
  length out = length vals
  /\ (forall i, i < length vals -> exists v, out !! i = Some (Finite v))
  /\ (forall c : num, vals !! 0 = Some c -> out !! 0 = Some (Finite c))
  /\ (forall i (c : num) p, vals !! S i = Some c -> out !! i = Some (Finite p) ->
        exists v, out !! S i = Some (Finite v)
                  /\ (v == (2 # 21) * c + (19 # 21) * p)%Q).
Proof.
  cbn zeta. unfold ewm_mean. split; [apply ewm_length|].
  destruct vals as [|v0 rest].
  { repeat split; intros; simpl in *; try lia; discriminate. }
  destruct alpha_span_20 as [Ha Hf].
  set (a := (1 / (1 + get_center_of_mass 20))%Q) in *.
  assert (Hfa : (1 - a + a == 1)%Q) by ring.
  destruct (ewm_loop_spec (1 - a) a (Nat.max 0 1) rest Hfa v0 1 ltac:(simpl; lia))
    as (Hdef & Hhead & Hrec).
  unfold ewm. fold a. cbn [Nat.max Nat.leb].
  repeat split.
  - intros [|i] Hi; simpl in *; [eexists; reflexivity|]. apply Hdef. lia.
  - intros c Hc. simpl in Hc. injection Hc as <-. reflexivity.
  - intros [|i] c p Hc Hp; simpl in Hc, Hp |- *.
    + injection Hp as <-. destruct (Hhead c Hc) as (v & Hv & Heq).
      exists v. split; [exact Hv|]. rewrite Heq, Hf, Ha. reflexivity.
    + destruct (Hrec i c p Hc Hp) as (v & Hv & Heq).
      exists v. split; [exact Hv|]. rewrite Heq, Hf, Ha. reflexivity.
Qed.

End EwmFacts.

(** ** The indicator computation *)

Lemma bind_Ok {A B} (c : M A) (k : A -> M B) (w w' : world) (a : A) :
  c w = (Ok a, w') -> bind c k w = k a w'.
Proof. intros H. unfold bind. rewrite H. reflexivity. Qed.

Lemma load_Some (r : ref) (d : DataFrame) (w : world) :
  heap w !! r = Some d -> load r w = (Ok d, w).
Proof. intros H. unfold load. rewrite H. reflexivity. Qed.

Lemma getitem_Some (r : ref) (f : Row -> num) (d : DataFrame) (w : world) :
  heap w !! r = Some d -> getitem r f w = (Ok (column f d), w).
Proof.
  intros H. unfold getitem. rewrite (bind_Ok _ _ _ _ _ (load_Some r d w H)).
  reflexivity.
Qed.

(** On an object of the heap the call succeeds, returns the reference it was
    given and replaces the object by its augmented version, in place. *)
Lemma add_indicators_run (w : world) (df : ref) (d : DataFrame) :
  heap w !! df = Some d ->
  add_indicators df w
  = (Ok df, mkWorld (<[df := augmented d]> (heap w)) (next w) (shown w)).
Proof.
  intros H. unfold add_indicators.
  rewrite (bind_Ok _ _ _ _ _ (getitem_Some df Close d w H)).
  rewrite (bind_Ok (setitem_SMA20 df _) _ w
             (mkWorld (<[df := mkDataFrame (rows d)
                                  (Some (Rolling.rolling_mean 20 (column Close d)))
                                  (EMA20 d)]> (heap w)) (next w) (shown w)) tt).
  2:{ unfold setitem_SMA20. rewrite (bind_Ok _ _ _ _ _ (load_Some df d w H)).
      reflexivity. }
  set (d1 := mkDataFrame (rows d) _ (EMA20 d)).
  set (w1 := mkWorld _ _ _).
  assert (H1 : heap w1 !! df = Some d1) by apply lookup_insert_eq.
  rewrite (bind_Ok _ _ _ _ _ (getitem_Some df Close d1 w1 H1)).
  unfold setitem_EMA20.
  rewrite (bind_Ok (bind (load df) _) _ w1
             (mkWorld (<[df := augmented d]> (heap w)) (next w) (shown w)) tt).
  - reflexivity.
  - rewrite (bind_Ok _ _ _ _ _ (load_Some df d1 w1 H1)).
    unfold store, w1. cbn [heap next shown]. rewrite insert_insert_eq.
    reflexivity.
Qed.

Lemma rolling_mean_20_length (close : list num) :
  length (Rolling.rolling_mean 20 close) = length close.
Proof. apply RollingFacts.roll_mean_length. Qed.

Lemma ewm_mean_20_length (close : list num) :
  length (Ewm.ewm_mean 20 false close) = length close.
Proof. apply EwmFacts.ewm_length. Qed.

(** Before row 19 the window has fewer than 20 rows: the cell is missing. *)
Lemma rolling_mean_20_missing (close : list num) (i : nat) :
  i < length close -> i < 19 -> Rolling.rolling_mean 20 close !! i = Some NaN.
Proof.
  intros Hi Hlt. apply RollingFacts.roll_mean_short_window; [exact Hi|].
  unfold Rolling.win_start, Rolling.win_end. lia.
Qed.

(** From row 19 on, and with closes that keep the sums within the float64
    range, the cell is the mean of the window. *)
Lemma rolling_mean_20_defined (close : list num) (i : nat) :
  (forall c : num, c ∈ close -> (Qabs c <= safe_close)%Q) ->
  i < length close -> 19 <= i ->
  exists v, Rolling.rolling_mean 20 close !! i = Some (Finite v)
            /\ (v == window_mean close i)%Q.
Proof.
  intros Hsafe Hi Hge.
  assert (Hb : forall v : num, v ∈ close ->
            (- safe_close <= v)%Q /\ (v <= safe_close)%Q).
  { intros v Hv. apply Qabs_Qle_condition, Hsafe, Hv. }
  destruct (RollingFacts.roll_mean_tracks close 20 safe_close Hb safe_close_room
              20 i ltac:(lia) Hi) as (st & Hl & Ht).
  destruct (RollingFacts.calc_mean_tracks close 20 safe_close Hb safe_close_room
              20 st _ _ Ht) as (v & Hv & Ev);
    try (unfold Rolling.win_start, Rolling.win_end; lia).
  exists v. unfold Rolling.rolling_mean. rewrite Hl, Hv. split; [reflexivity|].
  rewrite Ev. unfold window_mean, Rolling.win_start, Rolling.win_end.
  replace (i + 1 - 20) with (i - 19) by lia.
  replace (i + 1 - (i - 19)) with 20 by lia. reflexivity.
Qed.

(** C1 (as stated, refuted): on twenty-one rows whose closes are finite
    float64 values just above 2^1023 the sum of the window leaves the
    float64 range, and SMA20 at rows 19 and 20 is NaN, not the mean of the
    closes (which lies between the closes). *)
Lemma SMA20_is_not_the_mean_when_the_sum_overflows :
  length huge_rows = 21
  /\ Forall (fun r : Row => (0 < Close r)%Q /\ (Close r < float_overflow)%Q) huge_rows
  /\ exists d' sma,
       heap (add_indicators 0 (holding (fresh_table huge_rows))).2 !! 0 = Some d'
       /\ SMA20 d' = Some sma
       /\ sma !! 19 = Some NaN
       /\ sma !! 20 = Some NaN.
Proof.
  split; [reflexivity|]. split.
  { unfold huge_rows. apply Forall_forall. intros r Hr.
    apply list_elem_of_fmap in Hr as (i & -> & Hi). apply elem_of_seq in Hi.
    cbn [Close sample_row value].
    assert (Hz : (0 <= Z.of_nat i <= 20)%Z) by lia.
    split.
    - change 0%Q with (inject_Z 0). rewrite <- Zlt_Qlt. lia.
    - unfold float_overflow. rewrite <- Zlt_Qlt.
      assert (E : (2 ^ 1024 = 2 ^ 1023 + 2 ^ 1023)%Z) by reflexivity.
      assert (E2 : (2 ^ 1023 = 2 ^ 970 + (2 ^ 1023 - 2 ^ 970))%Z) by lia.
      assert (E3 : (21 * 2 ^ 971 < 2 ^ 1023 - 2 ^ 970)%Z) by reflexivity.
      nia. }
  assert (H : heap (holding (fresh_table huge_rows)) !! 0 = Some (fresh_table huge_rows))
    by apply lookup_insert_eq.
  exists (augmented (fresh_table huge_rows)),
         (Rolling.rolling_mean 20 (column Close (fresh_table huge_rows))).
  rewrite (add_indicators_run _ 0 _ H). cbn [snd heap].
  split; [apply lookup_insert_eq|]. split; [reflexivity|].
  split; vm_compute; reflexivity.
Qed.

(** C1 (amended): for every series the indicator computation succeeds and
    yields an SMA20 column with one cell per row; the cell of row i is
    missing (NaN) when i < 19, so on a series shorter than 20 rows every
    cell is missing; and when no close exceeds 2^1019 in absolute value, so
    that the sum of a window stays within the float64 range, the cell of
    every row i >= 19 holds the arithmetic mean of Close over rows
    [i-19, i]. *)
Theorem add_indicators_SMA20 (w : world) (df : ref) (d : DataFrame) :
  heap w !! df = Some d ->
  exists (w' : world) (d' : DataFrame) (sma : list cell),
    add_indicators df w = (Ok df, w')
    /\ heap w' !! df = Some d'
    /\ SMA20 d' = Some sma
    /\ length sma = length (rows d)
    /\ (forall i, i < length (rows d) -> i < 19 -> sma !! i = Some NaN)
    /\ (length (rows d) < 20 -> sma = replicate (length (rows d)) NaN)
    /\ ((forall r, r ∈ rows d -> (Qabs (Close r) <= safe_close)%Q) ->
        forall i, i < length (rows d) -> 19 <= i ->
          exists v, sma !! i = Some (Finite v)
                    /\ (v == window_mean (column Close d) i)%Q).
Proof.
  intros H.
  exists (mkWorld (<[df := augmented d]> (heap w)) (next w) (shown w)),
         (augmented d), (Rolling.rolling_mean 20 (column Close d)).
  assert (Hcol : length (column Close d) = length (rows d))
    by (unfold column; apply length_map).
  assert (Hlen : length (Rolling.rolling_mean 20 (column Close d)) = length (rows d))
    by (rewrite rolling_mean_20_length; exact Hcol).
  split; [apply add_indicators_run, H|].
  split; [apply lookup_insert_eq|].
  split; [reflexivity|].
  split; [exact Hlen|].
  split; [|split].
  - intros i Hi Hlt. apply rolling_mean_20_missing; [lia | exact Hlt].
  - intros Hshort. apply list_eq. intros i.
    destruct (decide (i < length (rows d))) as [Hi|Hi].
    + rewrite lookup_replicate_2 by exact Hi.
      apply rolling_mean_20_missing; lia.
    + rewrite !lookup_ge_None_2; [reflexivity | rewrite length_replicate; lia | lia].
  - intros Hsafe i Hi Hge. apply rolling_mean_20_defined; [|lia|exact Hge].
    intros c Hc. unfold column in Hc. apply list_elem_of_fmap in Hc as (r & -> & Hr).
    apply Hsafe, Hr.
Qed.

Lemma add_indicators_SMA20_witness :
  (forall r, r ∈ rows (fresh_table (sample_rows 21)) ->
     (Qabs (Close r) <= safe_close)%Q)
  /\ exists (w' : world) (d' : DataFrame) (sma : list cell),
    add_indicators 0 (holding (fresh_table (sample_rows 21))) = (Ok 0, w')
    /\ heap w' !! 0 = Some d'
    /\ SMA20 d' = Some sma
    /\ length sma = length (rows (fresh_table (sample_rows 21)))
    /\ (forall i, i < length (rows (fresh_table (sample_rows 21))) -> i < 19 ->
          sma !! i = Some NaN)
    /\ (length (rows (fresh_table (sample_rows 21))) < 20 ->
          sma = replicate (length (rows (fresh_table (sample_rows 21)))) NaN)
    /\ ((forall r, r ∈ rows (fresh_table (sample_rows 21)) ->
           (Qabs (Close r) <= safe_close)%Q) ->
        forall i, i < length (rows (fresh_table (sample_rows 21))) -> 19 <= i ->
          exists v, sma !! i = Some (Finite v)
                    /\ (v == window_mean (column Close (fresh_table (sample_rows 21))) i)%Q).
Proof.
  split.
  - apply Forall_forall. unfold fresh_table, sample_rows. cbn [rows seq map].
    repeat (constructor; [vm_compute; discriminate|]). constructor.
  - apply (add_indicators_SMA20 (holding (fresh_table (sample_rows 21))) 0
             (fresh_table (sample_rows 21))).
    reflexivity.
Defined.

(** C2: for every non-empty series, the indicator computation succeeds and
    yields an EMA20 column that is defined at every row, whose first cell is
    Close[0] and whose cell at each later row i is
    (2/21) * Close[i] + (19/21) * EMA20[i-1]. *)
Theorem add_indicators_EMA20 (w : world) (df : ref) (d : DataFrame) :
  heap w !! df = Some d ->
  rows d <> [] ->
  exists (w' : world) (d' : DataFrame) (ema : list cell),
    add_indicators df w = (Ok df, w')
    /\ heap w' !! df = Some d'
    /\ EMA20 d' = Some ema
    /\ length ema = length (rows d)
    /\ (forall i, i < length (rows d) -> exists v, ema !! i = Some (Finite v))
    /\ (exists c0 : num, column Close d !! 0 = Some c0 /\ ema !! 0 = Some (Finite c0))
    /\ (forall i (c : num) p,
          column Close d !! S i = Some c -> ema !! i = Some (Finite p) ->
          exists v, ema !! S i = Some (Finite v)
                    /\ (v == (2 # 21) * c + (19 # 21) * p)%Q).
Proof.
  intros H Hne.
  exists (mkWorld (<[df := augmented d]> (heap w)) (next w) (shown w)),
         (augmented d), (Ewm.ewm_mean 20 false (column Close d)).
  assert (Hcol : length (column Close d) = length (rows d))
    by (unfold column; apply length_map).
  destruct (EwmFacts.ewm_mean_20_spec (column Close d))
    as (Hlen & Hdef & Hhead & Hrec).
  split; [apply add_indicators_run, H|].
  split; [apply lookup_insert_eq|].
  split; [reflexivity|].
  split; [rewrite Hlen; exact Hcol|].
  split; [intros i Hi; apply Hdef; lia|].
  split; [|exact Hrec].
  destruct (rows d) as [|r0 rs] eqn:E; [contradiction|].
  exists (Close r0). unfold column in *. rewrite E in *.
  split; [reflexivity|]. apply Hhead. reflexivity.
Qed.

Lemma add_indicators_EMA20_witness :
  exists (w' : world) (d' : DataFrame) (ema : list cell),
    add_indicators 0 (holding (fresh_table (sample_rows 3))) = (Ok 0, w')
    /\ heap w' !! 0 = Some d'
    /\ EMA20 d' = Some ema
    /\ length ema = length (rows (fresh_table (sample_rows 3)))
    /\ (forall i, i < length (rows (fresh_table (sample_rows 3))) ->
          exists v, ema !! i = Some (Finite v))
    /\ (exists c0 : num, column Close (fresh_table (sample_rows 3)) !! 0 = Some c0
                   /\ ema !! 0 = Some (Finite c0))
    /\ (forall i (c : num) p,
          column Close (fresh_table (sample_rows 3)) !! S i = Some c ->
          ema !! i = Some (Finite p) ->
          exists v, ema !! S i = Some (Finite v)
                    /\ (v == (2 # 21) * c + (19 # 21) * p)%Q).
Proof.
  apply (add_indicators_EMA20 (holding (fresh_table (sample_rows 3))) 0
           (fresh_table (sample_rows 3))).
  - reflexivity.
  - simpl. discriminate.
Defined.

(** C6: the indicator computation is idempotent: applied a second time to
    the table it has just augmented, it succeeds again and leaves SMA20 and
    EMA20 (indeed the whole world) exactly as they were after the first
    application. *)
Theorem add_indicators_idempotent (w : world) (df : ref) (d : DataFrame) :
  heap w !! df = Some d ->
  exists (w1 w2 : world) (d1 d2 : DataFrame),
    add_indicators df w = (Ok df, w1)
    /\ add_indicators df w1 = (Ok df, w2)
    /\ heap w1 !! df = Some d1
    /\ heap w2 !! df = Some d2
    /\ SMA20 d2 = SMA20 d1
    /\ EMA20 d2 = EMA20 d1
    /\ w2 = w1.
Proof.
  intros H.
  set (w1 := mkWorld (<[df := augmented d]> (heap w)) (next w) (shown w)).
  assert (H1 : heap w1 !! df = Some (augmented d)) by apply lookup_insert_eq.
  assert (Hw : mkWorld (<[df := augmented (augmented d)]> (heap w1)) (next w1) (shown w1)
               = w1).
  { unfold w1. cbn [heap next shown]. rewrite insert_insert_eq. reflexivity. }
  exists w1, w1, (augmented d), (augmented d).
  split; [apply add_indicators_run, H|].
  split; [rewrite (add_indicators_run w1 df (augmented d) H1), Hw; reflexivity|].
  repeat split; assumption.
Qed.

Lemma add_indicators_idempotent_witness :
  exists (w1 w2 : world) (d1 d2 : DataFrame),
    add_indicators 0 (holding (fresh_table (sample_rows 21))) = (Ok 0, w1)
    /\ add_indicators 0 w1 = (Ok 0, w2)
    /\ heap w1 !! 0 = Some d1
    /\ heap w2 !! 0 = Some d2
    /\ SMA20 d2 = SMA20 d1
    /\ EMA20 d2 = EMA20 d1
    /\ w2 = w1.
Proof.
  apply (add_indicators_idempotent (holding (fresh_table (sample_rows 21))) 0
           (fresh_table (sample_rows 21))).
  reflexivity.
Defined.


(** ** The steps of a cycle *)

Lemma emit_run (e : event) (w : world) :
  emit e w = (Ok tt, mkWorld (heap w) (next w) (shown w ++ [e])).
Proof. reflexivity. Qed.

Lemma plot_candlestick_run (df : ref) (ticker : string) (d : DataFrame) (w : world) :
  heap w !! df = Some d -> plot_candlestick df ticker w = (Ok (figure_of d ticker), w).
Proof.
  intros H. unfold plot_candlestick.
  rewrite (bind_Ok _ _ _ _ _ (load_Some df d w H)). reflexivity.
Qed.

Lemma tail_run (df : ref) (d : DataFrame) (w : world) :
  heap w !! df = Some d -> tail df w = (Ok (tail_of d), w).
Proof.
  intros H. unfold tail.
  rewrite (bind_Ok _ _ _ _ _ (load_Some df d w H)). reflexivity.
Qed.

Lemma empty_run (df : ref) (d : DataFrame) (w : world) :
  heap w !! df = Some d ->
  empty df w = (Ok (match rows d with [] => true | _ => false end), w).
Proof.
  intros H. unfold empty.
  rewrite (bind_Ok _ _ _ _ _ (load_Some df d w H)). reflexivity.
Qed.

(** Position [-k] of a series that has at least [k] values. *)
Lemma iloc_from_end {A} (values : list A) (k : nat) (v : A) (w : world) :
  0 < k -> k <= length values ->
  values !! (length values - k) = Some v ->
  iloc values (- Z.of_nat k) w = (Ok v, w).
Proof.
  intros Hk Hle Hv. unfold iloc.
  assert (Hneg : (- Z.of_nat k <? 0)%Z = true) by (apply Z.ltb_lt; lia).
  rewrite Hneg.
  assert (Hin : ((0 <=? - Z.of_nat k + Z.of_nat (length values))%Z
                 && (- Z.of_nat k + Z.of_nat (length values)
                     <? Z.of_nat (length values))%Z) = true).
  { apply andb_true_iff. split; [apply Z.leb_le | apply Z.ltb_lt]; lia. }
  rewrite Hin.
  replace (Z.to_nat (- Z.of_nat k + Z.of_nat (length values)))
    with (length values - k) by lia.
  rewrite Hv. reflexivity.
Qed.

(** Position [-k] of a series that has fewer than [k] values. *)
Lemma iloc_out_of_bounds {A} (values : list A) (k : nat) (w : world) :
  length values < k ->
  iloc values (- Z.of_nat k) w
  = (Raise (IndexError "single positional indexer is out-of-bounds"), w).
Proof.
  intros Hk. unfold iloc.
  assert (Hneg : (- Z.of_nat k <? 0)%Z = true) by (apply Z.ltb_lt; lia).
  rewrite Hneg.
  assert (Hout : (0 <=? - Z.of_nat k + Z.of_nat (length values))%Z = false)
    by (apply Z.leb_gt; lia).
  rewrite Hout. reflexivity.
Qed.

Lemma iloc_last (f : Row -> num) (d : DataFrame) (pre : list Row) (rl : Row)
      (w : world) :
  rows d = pre ++ [rl] ->
  iloc (column f d) (-1) w = (Ok (f rl), w).
Proof.
  intros Hrows.
  apply (iloc_from_end _ 1); unfold column; rewrite ?Hrows;
    rewrite ?length_map, ?length_app; cbn [length]; try lia.
  rewrite list_lookup_fmap.
  replace (length pre + 1 - 1) with (length pre + 0) by lia.
  rewrite lookup_app_r, Nat.add_comm, Nat.add_sub by lia. reflexivity.
Qed.

Lemma iloc_prev (f : Row -> num) (d : DataFrame) (pre : list Row) (rp rl : Row)
      (w : world) :
  rows d = pre ++ [rp; rl] ->
  iloc (column f d) (-2) w = (Ok (f rp), w).
Proof.
  intros Hrows.
  apply (iloc_from_end _ 2); unfold column; rewrite ?Hrows;
    rewrite ?length_map, ?length_app; cbn [length]; try lia.
  rewrite list_lookup_fmap.
  replace (length pre + 2 - 2) with (length pre + 0) by lia.
  rewrite lookup_app_r, Nat.add_comm, Nat.add_sub by lia. reflexivity.
Qed.

Lemma for_each_countdown (l : list nat) (w : world) :
  for_each l (fun i => run! emit (Markdown i) in emit (Sleep 1)) w
  = (Ok tt, mkWorld (heap w) (next w)
              (shown w ++ flat_map (fun i => [Markdown i; Sleep 1]) l)).
Proof.
  revert w. induction l as [|i l IH]; intros w; cbn [for_each flat_map].
  - destruct w. unfold ret. cbn [heap next shown]. rewrite app_nil_r. reflexivity.
  - unfold bind at 1. unfold bind at 1. rewrite !emit_run. rewrite IH.
    cbn [heap next shown]. rewrite <- !app_assoc. reflexivity.
Qed.

(** ** The four ways a cycle can go *)

(** The provider raises: an error banner, and the script ends. *)
Lemma run_cycle_with_provider_error (str_upper : string -> string) (yf : provider) (ticker_input msg : string)
      (refresh_rate : nat) :
  yf (str_upper ticker_input) default_period default_interval = inl msg ->
  run_cycle_with str_upper yf ticker_input refresh_rate
  = (Ok tt,
     mkWorld ∅ 0
       (page_header
          ++ [History (str_upper ticker_input) "1d" "1m";
              Error ("Error: " ++ msg)%string])).
Proof.
  intros Hyf.
  unfold run_cycle_with, app_with, try_except, get_stock_data, emit, bind, raise, initial.
  cbn [heap next shown]. rewrite Hyf. reflexivity.
Qed.

(** The provider has no rows: a warning, and the script ends. *)
Lemma run_cycle_with_empty (str_upper : string -> string) (yf : provider) (ticker_input : string)
      (refresh_rate : nat) :
  yf (str_upper ticker_input) default_period default_interval = inr [] ->
  run_cycle_with str_upper yf ticker_input refresh_rate
  = (Ok tt,
     mkWorld (<[0 := fresh_table []]> ∅) 1
       (page_header
          ++ [History (str_upper ticker_input) "1d" "1m";
              Warning "No data available. Try a different ticker or interval."])).
Proof.
  intros Hyf.
  unfold run_cycle_with, app_with, try_except, get_stock_data, empty, load, alloc, emit,
    bind, initial.
  cbn [heap next shown]. rewrite Hyf. cbn [heap next shown].
  rewrite lookup_insert_eq. reflexivity.
Qed.

Ltac name_world w :=
  match goal with |- bind _ _ ?w0 = _ => set (w := w0) end.

Ltac step H := rewrite (bind_Ok _ _ _ _ _ H); cbn [heap next shown].

Ltac step_emit :=
  match goal with |- bind (emit ?e) _ ?w = _ => step (emit_run e w) end.

(** The provider has exactly one row: the indicators are added, then the
    previous close is out of bounds; an error banner, and the script ends. *)
Lemma run_cycle_with_one_row (str_upper : string -> string) (yf : provider) (ticker_input : string)
      (refresh_rate : nat)
      (r : Row) :
  yf (str_upper ticker_input) default_period default_interval = inr [r] ->
  run_cycle_with str_upper yf ticker_input refresh_rate
  = (Ok tt,
     mkWorld (<[0 := augmented (fresh_table [r])]> ∅) 1
       (page_header
          ++ [History (str_upper ticker_input) "1d" "1m";
              Error "Error: single positional indexer is out-of-bounds"])).
Proof.
  intros Hyf. unfold run_cycle_with, app_with.
  step (emit_run (SetPageConfig "Stock Dashboard" "wide") initial).
  step (emit_run (Title "📈 Real-Time Stock Market Dashboard")
          (mkWorld ∅ 0 ([] ++ [SetPageConfig "Stock Dashboard" "wide"]))).
  unfold try_except, get_stock_data.
  match goal with |- context [bind (bind (emit ?e) ?k) ?k' ?w] =>
    assert (Hbody : bind (bind (emit e) k) k' w
                    = (Raise (IndexError "single positional indexer is out-of-bounds"),
                       mkWorld (<[0 := augmented (fresh_table [r])]> ∅) 1
                         (page_header ++ [History (str_upper ticker_input) "1d" "1m"])))
  end.
  { unfold bind at 1. step (emit_run (History (str_upper ticker_input) default_period
                                        default_interval)
                              (mkWorld ∅ 0 (([] ++ [SetPageConfig "Stock Dashboard" "wide"])
                                 ++ [Title "📈 Real-Time Stock Market Dashboard"]))).
    rewrite Hyf. unfold alloc. cbn [heap next shown].
    name_world w1.
    assert (H1 : heap w1 !! 0 = Some (fresh_table [r])) by apply lookup_insert_eq.
    step (empty_run 0 _ w1 H1). cbn [rows fresh_table].
    step (add_indicators_run w1 0 _ H1).
    subst w1. cbn [heap next shown]. rewrite insert_insert_eq.
    name_world w2.
    assert (H2 : heap w2 !! 0 = Some (augmented (fresh_table [r])))
      by apply lookup_insert_eq.
    step (getitem_Some 0 Close _ w2 H2).
    step (iloc_last Close (augmented (fresh_table [r])) [] r w2 eq_refl).
    step (getitem_Some 0 Close _ w2 H2).
    unfold bind. rewrite (iloc_out_of_bounds _ 2 w2) by (simpl; lia).
    reflexivity. }
  rewrite Hbody. reflexivity.
Qed.

(** The provider has at least two rows: metrics, chart and table are shown,
    the countdown runs and the script asks to be run again. *)
Lemma run_cycle_with_rendered (str_upper : string -> string) (yf : provider) (ticker_input : string)
      (refresh_rate : nat)
      (pre : list Row) (rp rl : Row) :
  yf (str_upper ticker_input) default_period default_interval = inr (pre ++ [rp; rl]) ->
  run_cycle_with str_upper yf ticker_input refresh_rate
  = (Rerun,
     mkWorld (<[0 := augmented (fresh_table (pre ++ [rp; rl]))]> ∅) 1
       (page_header
          ++ [History (str_upper ticker_input) "1d" "1m"]
          ++ presentation (augmented (fresh_table (pre ++ [rp; rl])))
               (str_upper ticker_input) rp rl
          ++ countdown_events refresh_rate)).
Proof.
  intros Hyf. unfold run_cycle_with, app_with.
  step (emit_run (SetPageConfig "Stock Dashboard" "wide") initial).
  step (emit_run (Title "📈 Real-Time Stock Market Dashboard")
          (mkWorld ∅ 0 ([] ++ [SetPageConfig "Stock Dashboard" "wide"]))).
  unfold try_except, get_stock_data.
  set (d := fresh_table (pre ++ [rp; rl])).
  match goal with |- context [bind (bind (emit ?e) ?k) ?k' ?w] =>
    assert (Hbody : bind (bind (emit e) k) k' w
                    = (Rerun,
                       mkWorld (<[0 := augmented d]> ∅) 1
                         (page_header
                            ++ [History (str_upper ticker_input) "1d" "1m"]
                            ++ presentation (augmented d) (str_upper ticker_input) rp rl
                            ++ countdown_events refresh_rate)))
  end.
  { unfold bind at 1. step (emit_run (History (str_upper ticker_input) default_period
                                        default_interval)
                              (mkWorld ∅ 0 (([] ++ [SetPageConfig "Stock Dashboard" "wide"])
                                 ++ [Title "📈 Real-Time Stock Market Dashboard"]))).
    rewrite Hyf. unfold alloc. cbn [heap next shown].
    name_world w1.
    assert (H1 : heap w1 !! 0 = Some d) by apply lookup_insert_eq.
    step (empty_run 0 _ w1 H1). cbn [rows fresh_table d].
    assert (Hne : match pre ++ [rp; rl] with [] => true | _ :: _ => false end = false)
      by (destruct pre; reflexivity).
    rewrite Hne.
    step (add_indicators_run w1 0 _ H1).
    subst w1. cbn [heap next shown]. rewrite insert_insert_eq.
    name_world w2.
    assert (H2 : heap w2 !! 0 = Some (augmented d)) by apply lookup_insert_eq.
    step (getitem_Some 0 Close _ w2 H2).
    assert (Hlast : rows (augmented d) = (pre ++ [rp]) ++ [rl])
      by (rewrite <- app_assoc; reflexivity).
    assert (Hprev : rows (augmented d) = pre ++ [rp; rl]) by reflexivity.
    step (iloc_last Close (augmented d) _ rl w2 Hlast).
    step (getitem_Some 0 Close _ w2 H2).
    step (iloc_prev Close (augmented d) pre rp rl w2 Hprev).
    step_emit.
    name_world w3.
    assert (H3 : heap w3 !! 0 = Some (augmented d)) by apply lookup_insert_eq.
    step (getitem_Some 0 High _ w3 H3).
    step (iloc_last High (augmented d) _ rl w3 Hlast).
    step_emit.
    name_world w4.
    assert (H4 : heap w4 !! 0 = Some (augmented d)) by apply lookup_insert_eq.
    step (getitem_Some 0 Low _ w4 H4).
    step (iloc_last Low (augmented d) _ rl w4 Hlast).
    step_emit.
    name_world w5.
    assert (H5 : heap w5 !! 0 = Some (augmented d)) by apply lookup_insert_eq.
    step (plot_candlestick_run 0 (str_upper ticker_input) _ w5 H5).
    step (emit_run (PlotlyChart (figure_of (augmented d) (str_upper ticker_input))) w5).
    match goal with |- bind (emit ?e) _ ?w = _ => step (emit_run e w) end.
    name_world w6.
    assert (H6 : heap w6 !! 0 = Some (augmented d)) by apply lookup_insert_eq.
    step (tail_run 0 _ w6 H6).
    step (emit_run (Dataframe (tail_of (augmented d))) w6).
    match goal with |- bind (for_each ?l _) _ ?w = _ =>
      step (for_each_countdown l w) end.
    unfold experimental_rerun, page_header, presentation, countdown_events.
    subst w2 w3 w4 w5 w6. cbn [heap next shown].
    rewrite <- !app_assoc. reflexivity. }
  rewrite Hbody. reflexivity.
Qed.


(** The same four lemmas for the script on ASCII tickers. *)

Lemma run_cycle_provider_error (yf : provider) (ticker_input msg : string)
      (refresh_rate : nat) :
  yf (upper ticker_input) default_period default_interval = inl msg ->
  run_cycle yf ticker_input refresh_rate
  = (Ok tt,
     mkWorld ∅ 0
       (page_header
          ++ [History (upper ticker_input) "1d" "1m";
              Error ("Error: " ++ msg)%string])).
Proof. apply (run_cycle_with_provider_error upper). Qed.

Lemma run_cycle_empty (yf : provider) (ticker_input : string) (refresh_rate : nat) :
  yf (upper ticker_input) default_period default_interval = inr [] ->
  run_cycle yf ticker_input refresh_rate
  = (Ok tt,
     mkWorld (<[0 := fresh_table []]> ∅) 1
       (page_header
          ++ [History (upper ticker_input) "1d" "1m";
              Warning "No data available. Try a different ticker or interval."])).
Proof. apply (run_cycle_with_empty upper). Qed.

Lemma run_cycle_one_row (yf : provider) (ticker_input : string) (refresh_rate : nat)
      (r : Row) :
  yf (upper ticker_input) default_period default_interval = inr [r] ->
  run_cycle yf ticker_input refresh_rate
  = (Ok tt,
     mkWorld (<[0 := augmented (fresh_table [r])]> ∅) 1
       (page_header
          ++ [History (upper ticker_input) "1d" "1m";
              Error "Error: single positional indexer is out-of-bounds"])).
Proof. apply (run_cycle_with_one_row upper). Qed.

Lemma run_cycle_rendered (yf : provider) (ticker_input : string) (refresh_rate : nat)
      (pre : list Row) (rp rl : Row) :
  yf (upper ticker_input) default_period default_interval = inr (pre ++ [rp; rl]) ->
  run_cycle yf ticker_input refresh_rate
  = (Rerun,
     mkWorld (<[0 := augmented (fresh_table (pre ++ [rp; rl]))]> ∅) 1
       (page_header
          ++ [History (upper ticker_input) "1d" "1m"]
          ++ presentation (augmented (fresh_table (pre ++ [rp; rl])))
               (upper ticker_input) rp rl
          ++ countdown_events refresh_rate)).
Proof. apply (run_cycle_with_rendered upper). Qed.

(** C7 (as stated, refuted): the indicator computation does not leave its
    input unmodified: the table it is given has no SMA20 column before the
    call and has one after it. *)
Lemma add_indicators_modifies_input :
  heap (holding (fresh_table (sample_rows 1))) !! 0
  = Some (fresh_table (sample_rows 1))
  /\ SMA20 (fresh_table (sample_rows 1)) = None
  /\ exists d', heap (add_indicators 0 (holding (fresh_table (sample_rows 1)))).2 !! 0
                = Some d'
                /\ SMA20 d' = Some [NaN]
                /\ d' <> fresh_table (sample_rows 1).
Proof.
  assert (H : heap (holding (fresh_table (sample_rows 1))) !! 0
              = Some (fresh_table (sample_rows 1))) by apply lookup_insert_eq.
  split; [exact H|]. split; [reflexivity|].
  exists (augmented (fresh_table (sample_rows 1))).
  rewrite (add_indicators_run _ 0 _ H). cbn [snd heap].
  split; [apply lookup_insert_eq|]. split; [reflexivity|].
  intros E. apply (f_equal SMA20) in E. discriminate E.
Qed.

(** C7 (amended): the indicator computation updates the table it is given in
    place and returns the same reference: it assigns to that table an SMA20
    column, the 20-row rolling mean of its Close column, and an EMA20
    column, the exponential mean of span 20 of its Close column.  The rows
    (timestamps, OHLCV values, order) are unchanged, every other object, the
    reference counter and the events are untouched; and the two columns
    depend on the Close column alone: any table with the same Close column
    gets the same SMA20 and EMA20. *)
Theorem add_indicators_frame (w : world) (df : ref) (d : DataFrame) :
  heap w !! df = Some d ->
  exists (w' : world) (d' : DataFrame),
    add_indicators df w = (Ok df, w')
    /\ heap w' !! df = Some d'
    /\ rows d' = rows d
    /\ SMA20 d' = Some (Rolling.rolling_mean 20 (column Close d))
    /\ EMA20 d' = Some (Ewm.ewm_mean 20 false (column Close d))
    /\ (forall r, r <> df -> heap w' !! r = heap w !! r)
    /\ next w' = next w
    /\ shown w' = shown w
    /\ (forall (w2 : world) (df2 : ref) (d2 : DataFrame),
          heap w2 !! df2 = Some d2 ->
          column Close d2 = column Close d ->
          exists (w2' : world) (d2' : DataFrame),
            add_indicators df2 w2 = (Ok df2, w2')
            /\ heap w2' !! df2 = Some d2'
            /\ SMA20 d2' = SMA20 d'
            /\ EMA20 d2' = EMA20 d').
Proof.
  intros H.
  exists (mkWorld (<[df := augmented d]> (heap w)) (next w) (shown w)), (augmented d).
  split; [apply add_indicators_run, H|].
  split; [apply lookup_insert_eq|].
  split; [reflexivity|]. split; [reflexivity|]. split; [reflexivity|].
  split; [intros r Hr; cbn [heap]; apply lookup_insert_ne; congruence|].
  split; [reflexivity|]. split; [reflexivity|].
  intros w2 df2 d2 H2 Hclose.
  exists (mkWorld (<[df2 := augmented d2]> (heap w2)) (next w2) (shown w2)),
         (augmented d2).
  split; [apply add_indicators_run, H2|].
  split; [apply lookup_insert_eq|].
  unfold augmented. cbn [SMA20 EMA20]. rewrite Hclose. split; reflexivity.
Qed.

Lemma add_indicators_frame_witness :
  exists (w' : world) (d' : DataFrame),
    add_indicators 0 (holding (fresh_table (sample_rows 2))) = (Ok 0, w')
    /\ heap w' !! 0 = Some d'
    /\ rows d' = rows (fresh_table (sample_rows 2))
    /\ SMA20 d' = Some (Rolling.rolling_mean 20 (column Close (fresh_table (sample_rows 2))))
    /\ EMA20 d' = Some (Ewm.ewm_mean 20 false (column Close (fresh_table (sample_rows 2))))
    /\ (forall r, r <> 0 ->
          heap w' !! r = heap (holding (fresh_table (sample_rows 2))) !! r)
    /\ next w' = next (holding (fresh_table (sample_rows 2)))
    /\ shown w' = shown (holding (fresh_table (sample_rows 2)))
    /\ (forall (w2 : world) (df2 : ref) (d2 : DataFrame),
          heap w2 !! df2 = Some d2 ->
          column Close d2 = column Close (fresh_table (sample_rows 2)) ->
          exists (w2' : world) (d2' : DataFrame),
            add_indicators df2 w2 = (Ok df2, w2')
            /\ heap w2' !! df2 = Some d2'
            /\ SMA20 d2' = SMA20 d'
            /\ EMA20 d2' = EMA20 d').
Proof.
  apply (add_indicators_frame (holding (fresh_table (sample_rows 2))) 0
           (fresh_table (sample_rows 2))).
  reflexivity.
Defined.

(** C8 (as stated, refuted): on the augmented two-row series the SMA20 column
    is entirely missing, the specification's count is 2 traces, and the
    figure has 3: the SMA 20 overlay is not omitted. *)
Lemma overlay_of_undefined_column_is_drawn :
  SMA20 (augmented (fresh_table (sample_rows 2))) = Some [NaN; NaN]
  /\ spec_trace_count (augmented (fresh_table (sample_rows 2))) = 2
  /\ exists fig,
       plot_candlestick 0 "AAPL" (holding (augmented (fresh_table (sample_rows 2))))
       = (Ok fig, holding (augmented (fresh_table (sample_rows 2))))
       /\ length (data fig) = 3
       /\ data fig !! 1
          = Some (Scatter [1%Z; 2%Z] [NaN; NaN] "orange" (3 # 2) "SMA 20").
Proof.
  split; [reflexivity|]. split; [reflexivity|].
  eexists. split.
  - apply plot_candlestick_run. apply lookup_insert_eq.
  - split; reflexivity.
Qed.

(** C8 (amended): the figure holds exactly one candlestick trace, then one
    overlay line per indicator column that is present in the table, SMA20
    before EMA20, whether or not the column has any defined value; so it has
    1 + (0, 1 or 2) traces, and 3 for every augmented table. *)
Theorem plot_candlestick_traces (w : world) (df : ref) (ticker : string)
        (d : DataFrame) :
  heap w !! df = Some d ->
  exists fig,
    plot_candlestick df ticker w = (Ok fig, w)
    /\ data fig
       = [Candlestick (index d) (column Open d) (column High d) (column Low d)
            (column Close d) "Price"]
           ++ match SMA20 d with
              | Some y => [Scatter (index d) y "orange" (3 # 2) "SMA 20"]
              | None => []
              end
           ++ match EMA20 d with
              | Some y => [Scatter (index d) y "blue" (3 # 2) "EMA 20"]
              | None => []
              end
    /\ length (data fig) = 1 + present (SMA20 d) + present (EMA20 d)
    /\ (forall d0, d = augmented d0 -> length (data fig) = 3).
Proof.
  intros H. exists (figure_of d ticker).
  split; [apply plot_candlestick_run, H|].
  unfold figure_of. cbn [data].
  split; [|split].
  - destruct (SMA20 d), (EMA20 d); reflexivity.
  - destruct (SMA20 d), (EMA20 d); reflexivity.
  - intros d0 ->. reflexivity.
Qed.

Lemma plot_candlestick_traces_witness :
  exists fig,
    plot_candlestick 0 "AAPL" (holding (augmented (fresh_table (sample_rows 2))))
    = (Ok fig, holding (augmented (fresh_table (sample_rows 2))))
    /\ data fig
       = [Candlestick (index (augmented (fresh_table (sample_rows 2))))
            (column Open (augmented (fresh_table (sample_rows 2))))
            (column High (augmented (fresh_table (sample_rows 2))))
            (column Low (augmented (fresh_table (sample_rows 2))))
            (column Close (augmented (fresh_table (sample_rows 2)))) "Price"]
           ++ match SMA20 (augmented (fresh_table (sample_rows 2))) with
              | Some y => [Scatter (index (augmented (fresh_table (sample_rows 2))))
                             y "orange" (3 # 2) "SMA 20"]
              | None => []
              end
           ++ match EMA20 (augmented (fresh_table (sample_rows 2))) with
              | Some y => [Scatter (index (augmented (fresh_table (sample_rows 2))))
                             y "blue" (3 # 2) "EMA 20"]
              | None => []
              end
    /\ length (data fig)
       = 1 + present (SMA20 (augmented (fresh_table (sample_rows 2))))
           + present (EMA20 (augmented (fresh_table (sample_rows 2))))
    /\ (forall d0, augmented (fresh_table (sample_rows 2)) = augmented d0 ->
          length (data fig) = 3).
Proof.
  apply (plot_candlestick_traces (holding (augmented (fresh_table (sample_rows 2))))
           0 "AAPL" (augmented (fresh_table (sample_rows 2)))).
  reflexivity.
Defined.

Lemma header_not_rendering (e : event) :
  e ∈ page_header -> is_rendering e = false /\ is_countdown e = false /\ is_error e = false.
Proof.
  unfold page_header. rewrite !elem_of_cons, elem_of_nil.
  intros [->|[->|[]]]; repeat split.
Qed.

Lemma countdown_events_spec (n : nat) (e : event) :
  e ∈ countdown_events n ->
  is_countdown e = true /\ is_error e = false
  /\ (forall t p i, e <> History t p i).
Proof.
  unfold countdown_events. rewrite list_elem_of_In, in_flat_map.
  intros (i & _ & [<-|[<-|[]]]); repeat split; discriminate.
Qed.

Lemma presentation_spec (d : DataFrame) (ticker : string) (rp rl : Row) (e : event) :
  e ∈ presentation d ticker rp rl ->
  is_rendering e = true /\ is_error e = false
  /\ (forall t p i, e <> History t p i).
Proof.
  unfold presentation. rewrite !elem_of_cons, elem_of_nil.
  intros [->|[->|[->|[->|[->|[->|[]]]]]]]; repeat split; discriminate.
Qed.

(** A list of at least two rows ends in two rows. *)
Lemma last_two_rows (rws : list Row) :
  2 <= length rws -> exists pre rp rl, rws = pre ++ [rp; rl].
Proof.
  intros Hlen.
  exists (take (length rws - 2) rws).
  assert (Hd : length (drop (length rws - 2) rws) = 2) by (rewrite length_drop; lia).
  destruct (drop (length rws - 2) rws) as [|rp [|rl [|? ?]]] eqn:E; simpl in Hd; try lia.
  exists rp, rl. rewrite <- E. symmetry. apply take_drop.
Qed.

(** C3: when the provider returns a series with zero rows, the cycle shows
    the warning and ends: the indicator computation is skipped (the table
    still has no SMA20 and no EMA20 column), no metric, chart or table is
    shown, there is no countdown, and the script ends without asking for a
    rerun. *)
Theorem empty_series_suppresses_downstream (yf : provider) (ticker_input : string)
        (refresh_rate : nat) :
  yf (upper ticker_input) default_period default_interval = inr [] ->
  exists w,
    run_cycle yf ticker_input refresh_rate = (Ok tt, w)
    /\ shown w
       = page_header
           ++ [History (upper ticker_input) "1d" "1m";
               Warning "No data available. Try a different ticker or interval."]
    /\ heap w !! 0 = Some (mkDataFrame [] None None)
    /\ (forall e, e ∈ shown w -> is_rendering e = false /\ is_countdown e = false).
Proof.
  intros Hyf. eexists. split; [apply run_cycle_empty, Hyf|].
  cbn [shown heap]. split; [reflexivity|].
  split; [apply lookup_insert_eq|].
  intros e. rewrite elem_of_app, !elem_of_cons, elem_of_nil.
  intros [He|[->|[->|[]]]]; [|split; reflexivity..].
  destruct (header_not_rendering e He) as (? & ? & ?). split; assumption.
Qed.

Lemma empty_series_suppresses_downstream_witness :
  exists w,
    run_cycle (yf_rows []) "aapl" 15 = (Ok tt, w)
    /\ shown w
       = page_header
           ++ [History (upper "aapl") "1d" "1m";
               Warning "No data available. Try a different ticker or interval."]
    /\ heap w !! 0 = Some (mkDataFrame [] None None)
    /\ (forall e, e ∈ shown w -> is_rendering e = false /\ is_countdown e = false).
Proof.
  apply (empty_series_suppresses_downstream (yf_rows []) "aapl" 15).
  reflexivity.
Defined.

(** C4: when the provider returns a series with exactly one row, nothing
    guards the metrics: reading the previous close, position -2 of a Close
    column of length one, raises IndexError; the exception ends the cycle
    with the error banner, and no metric, chart or table is shown, nor is
    there a countdown. *)
Theorem one_row_series_crashes_metrics (yf : provider) (ticker_input : string)
        (refresh_rate : nat) (r : Row) :
  yf (upper ticker_input) default_period default_interval = inr [r] ->
  exists w,
    run_cycle yf ticker_input refresh_rate = (Ok tt, w)
    /\ heap w !! 0 = Some (augmented (fresh_table [r]))
    /\ iloc (column Close (augmented (fresh_table [r]))) (-2) w
       = (Raise (IndexError "single positional indexer is out-of-bounds"), w)
    /\ shown w
       = page_header
           ++ [History (upper ticker_input) "1d" "1m";
               Error "Error: single positional indexer is out-of-bounds"]
    /\ (forall e, e ∈ shown w -> is_rendering e = false /\ is_countdown e = false).
Proof.
  intros Hyf. eexists. split; [apply run_cycle_one_row, Hyf|].
  cbn [shown heap]. split; [apply lookup_insert_eq|].
  split; [apply (iloc_out_of_bounds _ 2); simpl; lia|].
  split; [reflexivity|].
  intros e. rewrite elem_of_app, !elem_of_cons, elem_of_nil.
  intros [He|[->|[->|[]]]]; [|split; reflexivity..].
  destruct (header_not_rendering e He) as (? & ? & ?). split; assumption.
Qed.

Lemma one_row_series_crashes_metrics_witness :
  exists w,
    run_cycle (yf_rows (sample_rows 1)) "aapl" 15 = (Ok tt, w)
    /\ heap w !! 0 = Some (augmented (fresh_table [sample_row 1 1]))
    /\ iloc (column Close (augmented (fresh_table [sample_row 1 1]))) (-2) w
       = (Raise (IndexError "single positional indexer is out-of-bounds"), w)
    /\ shown w
       = page_header
           ++ [History (upper "aapl") "1d" "1m";
               Error "Error: single positional indexer is out-of-bounds"]
    /\ (forall e, e ∈ shown w -> is_rendering e = false /\ is_countdown e = false).
Proof.
  apply (one_row_series_crashes_metrics (yf_rows (sample_rows 1)) "aapl" 15
           (sample_row 1 1)).
  reflexivity.
Defined.

(** C5 (as stated, refuted): on a two-row series whose previous close is 0
    the percent change does not raise: it is +infinity, the metric is shown
    with it, no error banner appears and the cycle runs to its rerun. *)
Lemma zero_previous_close_does_not_raise :
  Close (sample_row 0 0) = Num 0
  /\ (run_cycle (yf_rows [sample_row 0 0; sample_row 1 1]) "AAPL" 5).1 = Rerun
  /\ shown (run_cycle (yf_rows [sample_row 0 0; sample_row 1 1]) "AAPL" 5).2 !! 3
     = Some (Metric 1 "Latest Price" (Num 1) (Some (Finite 1, PosInf)))
  /\ existsb is_error
       (shown (run_cycle (yf_rows [sample_row 0 0; sample_row 1 1]) "AAPL" 5).2)
     = false.
Proof.
  split; [reflexivity|].
  rewrite (run_cycle_rendered (yf_rows [sample_row 0 0; sample_row 1 1]) "AAPL" 5
             [] (sample_row 0 0) (sample_row 1 1) eq_refl).
  cbn [fst snd shown]. repeat split; reflexivity.
Qed.

(** C5 (amended): on a series with at least two rows whose previous close is
    0 the percent change is an unguarded division by zero that does not
    raise: it evaluates to an infinity or to NaN; the cycle goes on to show
    the metrics, the chart and the table, counts down and asks for a rerun,
    with no error banner. *)
Theorem zero_previous_close_gives_non_finite (yf : provider) (ticker_input : string)
        (refresh_rate : nat) (pre : list Row) (rp rl : Row) :
  yf (upper ticker_input) default_period default_interval = inr (pre ++ [rp; rl]) ->
  (Close rp == 0)%Q ->
  exists w pct,
    run_cycle yf ticker_input refresh_rate = (Rerun, w)
    /\ pct = np_mul (np_truediv (np_sub (Finite (Close rl)) (Finite (Close rp)))
                      (Close rp)) 100
    /\ (pct = PosInf \/ pct = NegInf \/ pct = NaN)
    /\ shown w
       = page_header
           ++ [History (upper ticker_input) "1d" "1m";
               Metric 1 "Latest Price" (Close rl)
                 (Some (np_sub (Finite (Close rl)) (Finite (Close rp)), pct));
               Metric 2 "Day High" (High rl) None;
               Metric 3 "Day Low" (Low rl) None;
               PlotlyChart (figure_of (augmented (fresh_table (pre ++ [rp; rl])))
                              (upper ticker_input));
               Subheader "📊 Latest Data";
               Dataframe (tail_of (augmented (fresh_table (pre ++ [rp; rl]))))]
           ++ countdown_events refresh_rate
    /\ (forall e, e ∈ shown w -> is_error e = false).
Proof.
  intros Hyf Hzero.
  eexists _, (np_mul (np_truediv (np_sub (Finite (Close rl)) (Finite (Close rp)))
                        (Close rp)) 100).
  split; [apply run_cycle_rendered, Hyf|].
  split; [reflexivity|]. cbn [shown]. split; [|split; [reflexivity|]].
  - apply Qeq_bool_iff in Hzero.
    unfold np_sub, np_add, np_neg.
    destruct (fl_cases (Close rl + - Close rp)) as [ [-> _] | [ [-> _] | -> ] ];
      unfold np_truediv; rewrite ?Hzero;
      repeat match goal with
             | |- context [signbit ?x] => destruct (signbit x)
             | |- context [(?a ?= ?b)%Q] => destruct (a ?= b)%Q
             end; cbn; auto.
  - intros e. rewrite !elem_of_app, elem_of_cons, elem_of_nil.
    intros [He|[[->|[]]|[He|He]]].
    + apply header_not_rendering, He.
    + reflexivity.
    + apply (presentation_spec _ _ _ _ _ He).
    + apply (countdown_events_spec _ _ He).
Qed.

Lemma zero_previous_close_gives_non_finite_witness :
  exists w pct,
    run_cycle (yf_rows [sample_row 0 0; sample_row 1 1]) "AAPL" 5 = (Rerun, w)
    /\ pct = np_mul (np_truediv (np_sub (Finite (Close (sample_row 1 1)))
                                        (Finite (Close (sample_row 0 0))))
                      (Close (sample_row 0 0))) 100
    /\ (pct = PosInf \/ pct = NegInf \/ pct = NaN)
    /\ shown w
       = page_header
           ++ [History (upper "AAPL") "1d" "1m";
               Metric 1 "Latest Price" (Close (sample_row 1 1))
                 (Some (np_sub (Finite (Close (sample_row 1 1)))
                               (Finite (Close (sample_row 0 0))), pct));
               Metric 2 "Day High" (High (sample_row 1 1)) None;
               Metric 3 "Day Low" (Low (sample_row 1 1)) None;
               PlotlyChart
                 (figure_of
                    (augmented (fresh_table ([] ++ [sample_row 0 0; sample_row 1 1])))
                    (upper "AAPL"));
               Subheader "📊 Latest Data";
               Dataframe
                 (tail_of
                    (augmented (fresh_table ([] ++ [sample_row 0 0; sample_row 1 1]))))]
           ++ countdown_events 5
    /\ (forall e, e ∈ shown w -> is_error e = false).
Proof.
  apply (zero_previous_close_gives_non_finite
           (yf_rows [sample_row 0 0; sample_row 1 1]) "AAPL" 5
           [] (sample_row 0 0) (sample_row 1 1)).
  - reflexivity.
  - reflexivity.
Defined.

(** C9 (as stated, refuted): a cycle that ends in the empty-data warning and
    a cycle that ends in the provider-error banner both end the script
    without any countdown and without a rerun request, whereas the cycle of
    a two-row series counts down and asks for the rerun. *)
Lemma warning_and_error_end_the_loop :
  run_cycle (yf_rows []) "AAPL" 15
  = (Ok tt,
     mkWorld (<[0 := fresh_table []]> ∅) 1
       (page_header
          ++ [History "AAPL" "1d" "1m";
              Warning "No data available. Try a different ticker or interval."]))
  /\ run_cycle (yf_fails "timed out") "AAPL" 15
     = (Ok tt,
        mkWorld ∅ 0
          (page_header
             ++ [History "AAPL" "1d" "1m"; Error "Error: timed out"]))
  /\ (run_cycle (yf_rows (sample_rows 2)) "AAPL" 15).1 = Rerun
  /\ existsb is_countdown (shown (run_cycle (yf_rows (sample_rows 2)) "AAPL" 15).2)
     = true.
Proof.
  split; [apply (run_cycle_empty (yf_rows []) "AAPL" 15 eq_refl)|].
  split; [apply (run_cycle_provider_error (yf_fails "timed out") "AAPL" "timed out"
                   15 eq_refl)|].
  rewrite (run_cycle_rendered (yf_rows (sample_rows 2)) "AAPL" 15
             [] (sample_row 1 1) (sample_row 2 2) eq_refl).
  split; reflexivity.
Qed.

(** C9 (amended): a cycle that ends in a provider-error banner or in the
    empty-data warning ends the script there: the banner or warning is the
    last thing shown, there is no countdown, and the script returns normally
    instead of asking for a rerun, so it does not attempt the next cycle. *)
Theorem banner_ends_script_without_rerun (yf : provider) (ticker_input : string)
        (refresh_rate : nat) :
  (exists msg, yf (upper ticker_input) default_period default_interval = inl msg)
  \/ yf (upper ticker_input) default_period default_interval = inr [] ->
  exists w banner,
    run_cycle yf ticker_input refresh_rate = (Ok tt, w)
    /\ shown w = page_header ++ [History (upper ticker_input) "1d" "1m"; banner]
    /\ (is_error banner = true
        \/ banner = Warning "No data available. Try a different ticker or interval.")
    /\ (forall e, e ∈ shown w -> is_countdown e = false).
Proof.
  assert (Hno : forall banner, is_countdown banner = false ->
            forall e, e ∈ page_header ++ [History (upper ticker_input) "1d" "1m"; banner] ->
                      is_countdown e = false).
  { intros banner Hb e. rewrite elem_of_app, !elem_of_cons, elem_of_nil.
    intros [He|[->|[->|[]]]]; [apply header_not_rendering, He | reflexivity | exact Hb]. }
  intros [[msg Hyf]|Hyf].
  - eexists _, (Error ("Error: " ++ msg)%string).
    split; [apply run_cycle_provider_error, Hyf|]. cbn [shown].
    split; [reflexivity|]. split; [left; reflexivity|]. apply Hno. reflexivity.
  - eexists _, (Warning "No data available. Try a different ticker or interval.").
    split; [apply run_cycle_empty, Hyf|]. cbn [shown].
    split; [reflexivity|]. split; [right; reflexivity|]. apply Hno. reflexivity.
Qed.

Lemma banner_ends_script_without_rerun_witness :
  exists w banner,
    run_cycle (yf_fails "timed out") "aapl" 15 = (Ok tt, w)
    /\ shown w = page_header ++ [History (upper "aapl") "1d" "1m"; banner]
    /\ (is_error banner = true
        \/ banner = Warning "No data available. Try a different ticker or interval.")
    /\ (forall e, e ∈ shown w -> is_countdown e = false).
Proof.
  apply (banner_ends_script_without_rerun (yf_fails "timed out") "aapl" 15).
  left. exists "timed out"%string. reflexivity.
Defined.


(** The empty ticker goes to the provider as it is. *)
Example empty_ticker_is_fetched :
  shown (run_cycle (yf_rows []) "" 15).2
  = page_header
      ++ [History "" "1d" "1m";
          Warning "No data available. Try a different ticker or interval."].
Proof. reflexivity. Qed.

Example upper_example : upper "infy.ns" = "INFY.NS"%string.
Proof. reflexivity. Qed.


(** * Further properties of the script *)

(** ** How a cycle ends *)

(** X1: the script never ends on an uncaught exception: it asks for a rerun when
    the provider returned at least two rows, and returns normally in every
    other case (provider exception, no row, one row). *)
Theorem cycle_outcome (yf : provider) (ticker_input : string) (refresh_rate : nat) :
  (run_cycle yf ticker_input refresh_rate).1
  = match yf (upper ticker_input) default_period default_interval with
    | inl _ => Ok tt
    | inr rws => if 2 <=? length rws then Rerun else Ok tt
    end.
Proof.
  destruct (yf (upper ticker_input) default_period default_interval)
    as [msg|[|r [|r' rws]]] eqn:Hyf.
  - rewrite (run_cycle_provider_error yf ticker_input msg refresh_rate Hyf).
    reflexivity.
  - rewrite (run_cycle_empty yf ticker_input refresh_rate Hyf). reflexivity.
  - rewrite (run_cycle_one_row yf ticker_input refresh_rate r Hyf). reflexivity.
  - destruct (last_two_rows (r :: r' :: rws) ltac:(simpl; lia)) as (pre & rp & rl & E).
    rewrite E in Hyf.
    rewrite (run_cycle_rendered yf ticker_input refresh_rate pre rp rl Hyf).
    reflexivity.
Qed.

(** X2: with at least two rows the cycle shows, in this order, the page header,
    the provider call, the three metrics of the last two rows, the chart of
    the augmented table, the subheader, the last rows of the augmented
    table and the countdown, and then asks for a rerun; the heap holds the
    augmented table. *)
Theorem cycle_with_two_rows_renders (yf : provider) (ticker_input : string)
        (refresh_rate : nat) (rws : list Row) :
  yf (upper ticker_input) default_period default_interval = inr rws ->
  2 <= length rws ->
  exists pre rp rl d,
    rws = pre ++ [rp; rl]
    /\ run_cycle yf ticker_input refresh_rate
       = (Rerun,
          mkWorld (<[0 := d]> ∅) 1
            (page_header
               ++ [History (upper ticker_input) "1d" "1m";
                   Metric 1 "Latest Price" (Close rl)
                     (Some (np_sub (Finite (Close rl)) (Finite (Close rp)),
                            np_mul (np_truediv (np_sub (Finite (Close rl))
                                                       (Finite (Close rp)))
                                      (Close rp)) 100));
                   Metric 2 "Day High" (High rl) None;
                   Metric 3 "Day Low" (Low rl) None;
                   PlotlyChart (figure_of d (upper ticker_input));
                   Subheader "📊 Latest Data";
                   Dataframe (tail_of d)]
               ++ flat_map (fun i => [Markdown i; Sleep 1]) (range_down refresh_rate)))
    /\ rows d = rws
    /\ SMA20 d = Some (Rolling.rolling_mean 20 (Close <$> rws))
    /\ EMA20 d = Some (Ewm.ewm_mean 20 false (Close <$> rws)).
Proof.
  intros Hyf Hlen.
  destruct (last_two_rows rws Hlen) as (pre & rp & rl & ->).
  exists pre, rp, rl, (augmented (fresh_table (pre ++ [rp; rl]))).
  split; [reflexivity|].
  split; [|repeat split].
  rewrite (run_cycle_rendered yf ticker_input refresh_rate pre rp rl Hyf).
  reflexivity.
Qed.

Lemma cycle_with_two_rows_renders_witness :
  exists pre rp rl d,
    sample_rows 3 = pre ++ [rp; rl]
    /\ run_cycle (yf_rows (sample_rows 3)) "msft" 5
       = (Rerun,
          mkWorld (<[0 := d]> ∅) 1
            (page_header
               ++ [History (upper "msft") "1d" "1m";
                   Metric 1 "Latest Price" (Close rl)
                     (Some (np_sub (Finite (Close rl)) (Finite (Close rp)),
                            np_mul (np_truediv (np_sub (Finite (Close rl))
                                                       (Finite (Close rp)))
                                      (Close rp)) 100));
                   Metric 2 "Day High" (High rl) None;
                   Metric 3 "Day Low" (Low rl) None;
                   PlotlyChart (figure_of d (upper "msft"));
                   Subheader "📊 Latest Data";
                   Dataframe (tail_of d)]
               ++ flat_map (fun i => [Markdown i; Sleep 1]) (range_down 5)))
    /\ rows d = sample_rows 3
    /\ SMA20 d = Some (Rolling.rolling_mean 20 (Close <$> sample_rows 3))
    /\ EMA20 d = Some (Ewm.ewm_mean 20 false (Close <$> sample_rows 3)).
Proof.
  apply (cycle_with_two_rows_renders (yf_rows (sample_rows 3)) "msft" 5 (sample_rows 3)).
  - reflexivity.
  - simpl. lia.
Defined.

(** X3: when the provider answers with rows, however many, the cycle ends
    with exactly one table in the heap, at reference 0, and the rows of that
    table are the rows the provider delivered, unchanged. *)
Theorem cycle_keeps_provider_rows (yf : provider) (ticker_input : string)
        (refresh_rate : nat) (rws : list Row) :
  yf (upper ticker_input) default_period default_interval = inr rws ->
  exists d,
    heap (run_cycle yf ticker_input refresh_rate).2 !! 0 = Some d
    /\ rows d = rws
    /\ (forall r, r <> 0 -> heap (run_cycle yf ticker_input refresh_rate).2 !! r = None).
Proof.
  intros Hyf.
  assert (Hother : forall (d : DataFrame) (r : nat),
            r <> 0 -> (<[0 := d]> (∅ : gmap nat DataFrame)) !! r = None).
  { intros d r Hr. rewrite lookup_insert_ne by congruence. apply lookup_empty. }
  destruct rws as [|r [|r' rws]].
  - rewrite (run_cycle_empty yf ticker_input refresh_rate Hyf). cbn [snd heap].
    eexists. split; [apply lookup_insert_eq|]. split; [reflexivity | apply Hother].
  - rewrite (run_cycle_one_row yf ticker_input refresh_rate r Hyf). cbn [snd heap].
    eexists. split; [apply lookup_insert_eq|]. split; [reflexivity | apply Hother].
  - destruct (last_two_rows (r :: r' :: rws) ltac:(simpl; lia)) as (pre & rp & rl & E).
    rewrite E in Hyf |- *.
    rewrite (run_cycle_rendered yf ticker_input refresh_rate pre rp rl Hyf).
    cbn [snd heap].
    eexists. split; [apply lookup_insert_eq|]. split; [reflexivity | apply Hother].
Qed.

Lemma cycle_keeps_provider_rows_witness :
  exists d,
    heap (run_cycle (yf_rows (sample_rows 3)) "msft" 5).2 !! 0 = Some d
    /\ rows d = sample_rows 3
    /\ (forall r, r <> 0 ->
          heap (run_cycle (yf_rows (sample_rows 3)) "msft" 5).2 !! r = None).
Proof.
  apply (cycle_keeps_provider_rows (yf_rows (sample_rows 3)) "msft" 5 (sample_rows 3)).
  reflexivity.
Defined.

(** ** The countdown *)

Lemma range_down_S (n : nat) : range_down (S n) = S n :: range_down n.
Proof.
  unfold range_down. rewrite seq_S, rev_app_distr. reflexivity.
Qed.

Lemma range_down_lookup (n i : nat) : i < n -> range_down n !! i = Some (n - i).
Proof.
  revert i. induction n as [|n IH]; intros i Hi; [lia|].
  rewrite range_down_S. destruct i as [|i]; simpl.
  - reflexivity.
  - rewrite IH by lia. reflexivity.
Qed.

Lemma countdown_events_S (n : nat) :
  countdown_events (S n) = Markdown (S n) :: Sleep 1 :: countdown_events n.
Proof. unfold countdown_events. rewrite range_down_S. reflexivity. Qed.

(** X4: the countdown loop started from [n] never fails; it shows n, n-1, ..., 1
    in this order, waits one second after each value, and so waits n
    seconds in all; it shows nothing when n is 0. *)
Theorem countdown_loop (n : nat) (w : world) :
  exists evs,
    for_each (range_down n) (fun i => run! emit (Markdown i) in emit (Sleep 1)) w
    = (Ok tt, mkWorld (heap w) (next w) (shown w ++ evs))
    /\ length evs = 2 * n
    /\ (forall i, i < n ->
          evs !! (2 * i) = Some (Markdown (n - i))
          /\ evs !! (2 * i + 1) = Some (Sleep 1))
    /\ sum_list (slept <$> evs) = n.
Proof.
  exists (countdown_events n). split; [apply for_each_countdown|].
  induction n as [|n IH].
  - repeat split; intros; lia.
  - destruct IH as (Hlen & Hat & Hsum). rewrite countdown_events_S.
    split; [simpl; lia|]. split.
    + intros [|i] Hi.
      * split; reflexivity.
      * replace (2 * S i) with (S (S (2 * i))) by lia.
        replace (S (S (2 * i)) + 1) with (S (S (2 * i + 1))) by lia.
        cbn [lookup list_lookup]. apply Hat. lia.
    + cbn [fmap list_fmap slept sum_list]. cbn [fmap] in Hsum. rewrite Hsum.
      reflexivity.
Qed.

(** ** The metrics *)

Lemma filter_metric_countdown (n : nat) :
  List.filter is_metric (countdown_events n) = [].
Proof.
  induction n as [|n IH]; [reflexivity|].
  rewrite countdown_events_S. simpl. exact IH.
Qed.

(** X5: with at least two rows the cycle shows exactly three metrics, and they
    are read off the last two rows alone: the latest price is the last
    close, its delta is the change from the close before it, and the day
    high and day low are the High and Low of the last row, whatever the
    earlier rows hold. *)
Theorem metrics_use_last_two_rows (yf : provider) (ticker_input : string)
        (refresh_rate : nat) (pre : list Row) (rp rl : Row) :
  yf (upper ticker_input) default_period default_interval = inr (pre ++ [rp; rl]) ->
  List.filter is_metric (shown (run_cycle yf ticker_input refresh_rate).2)
  = [Metric 1 "Latest Price" (Close rl)
       (Some (np_sub (Finite (Close rl)) (Finite (Close rp)),
              np_mul (np_truediv (np_sub (Finite (Close rl)) (Finite (Close rp)))
                        (Close rp)) 100));
     Metric 2 "Day High" (High rl) None;
     Metric 3 "Day Low" (Low rl) None].
Proof.
  intros Hyf.
  rewrite (run_cycle_rendered yf ticker_input refresh_rate pre rp rl Hyf).
  cbn [snd shown]. rewrite !List.filter_app, filter_metric_countdown. reflexivity.
Qed.

Lemma metrics_use_last_two_rows_witness :
  List.filter is_metric
    (shown (run_cycle (yf_rows ([sample_row 0 50] ++ [sample_row 1 1; sample_row 2 2]))
              "msft" 5).2)
  = [Metric 1 "Latest Price" (Close (sample_row 2 2))
       (Some (np_sub (Finite (Close (sample_row 2 2))) (Finite (Close (sample_row 1 1))),
              np_mul (np_truediv (np_sub (Finite (Close (sample_row 2 2)))
                                         (Finite (Close (sample_row 1 1))))
                        (Close (sample_row 1 1))) 100));
     Metric 2 "Day High" (High (sample_row 2 2)) None;
     Metric 3 "Day Low" (Low (sample_row 2 2)) None].
Proof.
  apply (metrics_use_last_two_rows
           (yf_rows ([sample_row 0 50] ++ [sample_row 1 1; sample_row 2 2]))
           "msft" 5 [sample_row 0 50] (sample_row 1 1) (sample_row 2 2)).
  reflexivity.
Defined.



(** ** The table of the last rows *)

Lemma last_n_length {A} (n : nat) (l : list A) :
  length (last_n n l) = Nat.min n (length l).
Proof. unfold last_n. rewrite length_drop. lia. Qed.

Lemma last_n_lookup {A} (n : nat) (l : list A) (j : nat) :
  last_n n l !! j = l !! (length l - Nat.min n (length l) + j).
Proof.
  unfold last_n. rewrite lookup_drop. f_equal. lia.
Qed.

(** X7: the table shown under the chart holds the last five rows of the
    augmented table, or all of them when there are fewer, in the same order:
    its row j is row (n - min 5 n + j) of the table, and the SMA20 and EMA20
    cells shown beside it are the cells of that same row. *)
Theorem tail_shows_last_five (w : world) (df : ref) (d0 : DataFrame) :
  heap w !! df = Some (augmented d0) ->
  exists t sma ema,
    tail df w = (Ok t, w)
    /\ SMA20 t = Some sma /\ EMA20 t = Some ema
    /\ length (rows t) = Nat.min 5 (length (rows d0))
    /\ length sma = length (rows t)
    /\ length ema = length (rows t)
    /\ (forall j,
          rows t !! j = rows d0 !! (length (rows d0) - Nat.min 5 (length (rows d0)) + j)
          /\ sma !! j
             = Rolling.rolling_mean 20 (column Close d0)
                 !! (length (rows d0) - Nat.min 5 (length (rows d0)) + j)
          /\ ema !! j
             = Ewm.ewm_mean 20 false (column Close d0)
                 !! (length (rows d0) - Nat.min 5 (length (rows d0)) + j))
    /\ (length (rows d0) <= 5 -> t = augmented d0).
Proof.
  intros H.
  assert (Hs : length (Rolling.rolling_mean 20 (column Close d0)) = length (rows d0)).
  { rewrite rolling_mean_20_length. unfold column. apply length_map. }
  assert (He : length (Ewm.ewm_mean 20 false (column Close d0)) = length (rows d0)).
  { rewrite ewm_mean_20_length. unfold column. apply length_map. }
  exists (tail_of (augmented d0)),
         (last_n 5 (Rolling.rolling_mean 20 (column Close d0))),
         (last_n 5 (Ewm.ewm_mean 20 false (column Close d0))).
  split; [apply tail_run, H|].
  split; [reflexivity|]. split; [reflexivity|].
  cbn [tail_of augmented rows SMA20 EMA20].
  rewrite !last_n_length, Hs, He.
  split; [reflexivity|]. split; [reflexivity|]. split; [reflexivity|].
  split.
  - intros j. rewrite !last_n_lookup, Hs, He. repeat split.
  - intros Hle. unfold tail_of, augmented, last_n. cbn [rows SMA20 EMA20 fmap option_fmap option_map].
    rewrite Hs, He. replace (length (rows d0) - 5) with 0 by lia. reflexivity.
Qed.

Lemma tail_shows_last_five_witness :
  exists t sma ema,
    tail 0 (holding (augmented (fresh_table (sample_rows 7))))
    = (Ok t, holding (augmented (fresh_table (sample_rows 7))))
    /\ SMA20 t = Some sma /\ EMA20 t = Some ema
    /\ length (rows t) = Nat.min 5 (length (rows (fresh_table (sample_rows 7))))
    /\ length sma = length (rows t)
    /\ length ema = length (rows t)
    /\ (forall j,
          rows t !! j
          = rows (fresh_table (sample_rows 7))
              !! (length (rows (fresh_table (sample_rows 7)))
                  - Nat.min 5 (length (rows (fresh_table (sample_rows 7)))) + j)
          /\ sma !! j
             = Rolling.rolling_mean 20 (column Close (fresh_table (sample_rows 7)))
                 !! (length (rows (fresh_table (sample_rows 7)))
                     - Nat.min 5 (length (rows (fresh_table (sample_rows 7)))) + j)
          /\ ema !! j
             = Ewm.ewm_mean 20 false (column Close (fresh_table (sample_rows 7)))
                 !! (length (rows (fresh_table (sample_rows 7)))
                     - Nat.min 5 (length (rows (fresh_table (sample_rows 7)))) + j))
    /\ (length (rows (fresh_table (sample_rows 7))) <= 5 ->
          t = augmented (fresh_table (sample_rows 7))).
Proof.
  apply (tail_shows_last_five (holding (augmented (fresh_table (sample_rows 7)))) 0
           (fresh_table (sample_rows 7))).
  reflexivity.
Defined.

(** ** The chart *)

(** X8: every trace of the chart of an augmented table is drawn over the
    table's own time axis and has exactly one value per timestamp, in the
    candlestick's four series as in the two overlays. *)
Theorem chart_traces_share_time_axis (w : world) (df : ref) (ticker : string)
        (d0 : DataFrame) :
  heap w !! df = Some (augmented d0) ->
  exists fig,
    plot_candlestick df ticker w = (Ok fig, w)
    /\ Forall (fun t => trace_x t = ts <$> rows d0 /\ trace_aligned t) (data fig)
    /\ title fig = (ticker ++ " - Real-Time Candlestick Chart")%string.
Proof.
  intros H. exists (figure_of (augmented d0) ticker).
  split; [apply plot_candlestick_run, H|]. split; [|reflexivity].
  assert (Hs : length (Rolling.rolling_mean 20 (column Close d0)) = length (rows d0)).
  { rewrite rolling_mean_20_length. unfold column. apply length_map. }
  assert (He : length (Ewm.ewm_mean 20 false (column Close d0)) = length (rows d0)).
  { rewrite ewm_mean_20_length. unfold column. apply length_map. }
  unfold figure_of, augmented, index, column. cbn [data rows SMA20 EMA20 app].
  repeat constructor; cbn [trace_x trace_aligned]; rewrite ?length_fmap, ?length_map;
    try reflexivity; assumption.
Qed.

Lemma chart_traces_share_time_axis_witness :
  exists fig,
    plot_candlestick 0 "MSFT" (holding (augmented (fresh_table (sample_rows 3))))
    = (Ok fig, holding (augmented (fresh_table (sample_rows 3))))
    /\ Forall (fun t => trace_x t = ts <$> rows (fresh_table (sample_rows 3))
                        /\ trace_aligned t) (data fig)
    /\ title fig = ("MSFT" ++ " - Real-Time Candlestick Chart")%string.
Proof.
  apply (chart_traces_share_time_axis
           (holding (augmented (fresh_table (sample_rows 3)))) 0 "MSFT"
           (fresh_table (sample_rows 3))).
  reflexivity.
Defined.

(** ** Reading a position of a column *)

(** X9: [iloc] succeeds exactly on the positions from -n to n-1 of a series of n
    values, where it reads the value at (k mod n), and raises IndexError on
    every other position, without changing anything. *)
Theorem iloc_bounds {A} (values : list A) (k : Z) (w : world) :
  if ((- Z.of_nat (length values) <=? k) && (k <? Z.of_nat (length values)))%Z
  then exists v, iloc values k w = (Ok v, w)
                 /\ values !! Z.to_nat (k mod Z.of_nat (length values)) = Some v
  else iloc values k w
       = (Raise (IndexError "single positional indexer is out-of-bounds"), w).
Proof.
  set (n := Z.of_nat (length values)).
  destruct ((- n <=? k) && (k <? n))%Z eqn:Hin.
  - apply andb_true_iff in Hin as [Hlo Hhi].
    apply Z.leb_le in Hlo. apply Z.ltb_lt in Hhi.
    unfold iloc. fold n.
    set (k' := if (k <? 0)%Z then (k + n)%Z else k).
    assert (Hk' : (0 <= k' < n)%Z).
    { unfold k'. destruct (k <? 0)%Z eqn:E;
        [apply Z.ltb_lt in E | apply Z.ltb_ge in E]; lia. }
    assert (Hmod : (k mod n = k')%Z).
    { unfold k'. destruct (k <? 0)%Z eqn:E;
        [apply Z.ltb_lt in E | apply Z.ltb_ge in E].
      - symmetry. apply (Z.mod_unique k n (-1) (k + n)); lia.
      - apply Z.mod_small. lia. }
    assert (Hc : ((0 <=? k') && (k' <? n))%Z = true).
    { apply andb_true_iff. split; [apply Z.leb_le | apply Z.ltb_lt]; lia. }
    rewrite Hc, Hmod.
    destruct (lookup_lt_is_Some_2 values (Z.to_nat k') ltac:(lia)) as [v Hv].
    rewrite Hv. exists v. split; reflexivity.
  - unfold iloc. fold n.
    set (k' := if (k <? 0)%Z then (k + n)%Z else k).
    assert (Hc : ((0 <=? k') && (k' <? n))%Z = false).
    { apply andb_false_iff in Hin as [Hlo|Hhi];
        [apply Z.leb_gt in Hlo | apply Z.ltb_ge in Hhi];
        apply andb_false_iff; unfold k';
        destruct (k <? 0)%Z eqn:E;
        [apply Z.ltb_lt in E | apply Z.ltb_ge in E
         | apply Z.ltb_lt in E | apply Z.ltb_ge in E];
        first [left; apply Z.leb_gt; lia | right; apply Z.ltb_ge; lia]. }
    rewrite Hc. reflexivity.
Qed.

(** ** The ticker *)

Lemma upper_ascii_idempotent (c : ascii) : upper_ascii (upper_ascii c) = upper_ascii c.
Proof. destruct c as [[] [] [] [] [] [] [] []]; reflexivity. Qed.

Lemma upper_idempotent (s : string) : upper (upper s) = upper s.
Proof.
  induction s as [|c s IH]; simpl; [reflexivity|].
  rewrite upper_ascii_idempotent, IH. reflexivity.
Qed.

Lemma upper_ascii_letters (c : ascii) :
  is_ascii c = true ->
  upper_ascii c
  = match list_find (fun l => l = c) lower_letters with
    | Some (k, _) => default c (upper_letters !! k)
    | None => c
    end.
Proof.
  destruct c as [[] [] [] [] [] [] [] []]; intros H;
    first [discriminate H | reflexivity].
Qed.

(** X10: on ASCII text, upper-casing keeps the length of the ticker and works
    letter by letter: the k-th letter of a..z becomes the k-th letter of
    A..Z and every other character (digits, dots, dashes, upper-case
    letters) is kept where it is; applied again it changes nothing. *)
Theorem upper_normalises (s : string) :
  Forall (fun c => is_ascii c = true) (chars s) ->
  String.length (upper s) = String.length s
  /\ (forall i c, chars s !! i = Some c ->
        chars (upper s) !! i
        = Some match list_find (fun l => l = c) lower_letters with
               | Some (k, _) => default c (upper_letters !! k)
               | None => c
               end)
  /\ upper (upper s) = upper s.
Proof.
  intros Hascii. split; [|split].
  - clear Hascii. induction s as [|c s IH]; simpl; [reflexivity | rewrite IH; reflexivity].
  - induction s as [|c s IH]; intros i c' Hi; [discriminate|].
    unfold chars in Hascii. cbn [list_ascii_of_string] in Hascii.
    apply Forall_cons in Hascii as [Hc Hs].
    destruct i as [|i]; simpl in Hi |- *.
    + injection Hi as <-. rewrite (upper_ascii_letters c Hc). reflexivity.
    + apply IH; assumption.
  - apply upper_idempotent.
Qed.

Lemma upper_normalises_witness :
  String.length (upper "infy.ns") = String.length "infy.ns"
  /\ (forall i c, chars "infy.ns" !! i = Some c ->
        chars (upper "infy.ns") !! i
        = Some match list_find (fun l => l = c) lower_letters with
               | Some (k, _) => default c (upper_letters !! k)
               | None => c
               end)
  /\ upper (upper "infy.ns") = upper "infy.ns".
Proof.
  apply (upper_normalises "infy.ns").
  repeat (constructor; [reflexivity|]). constructor.
Defined.

(** X11: the case of the typed ticker does not matter: the cycle for an input is
    the cycle for its upper-cased form, so two inputs that differ only in
    the case of their letters give the same provider call and the same
    page. *)
Theorem cycle_ignores_ticker_case (yf : provider) (s1 s2 : string)
        (refresh_rate : nat) :
  upper s1 = upper s2 ->
  run_cycle yf s1 refresh_rate = run_cycle yf s2 refresh_rate
  /\ run_cycle yf (upper s1) refresh_rate = run_cycle yf s1 refresh_rate.
Proof.
  intros E. unfold run_cycle, app, app_with. rewrite upper_idempotent, E.
  split; reflexivity.
Qed.

Lemma cycle_ignores_ticker_case_witness :
  run_cycle (yf_rows (sample_rows 3)) "Infy.ns" 5
  = run_cycle (yf_rows (sample_rows 3)) "INFY.ns" 5
  /\ run_cycle (yf_rows (sample_rows 3)) (upper "Infy.ns") 5
     = run_cycle (yf_rows (sample_rows 3)) "Infy.ns" 5.
Proof.
  apply (cycle_ignores_ticker_case (yf_rows (sample_rows 3)) "Infy.ns" "INFY.ns" 5).
  reflexivity.
Defined.


(** ** The indicators stay within the closes *)

Lemma window_mean_bounds (close : list num) (i : nat) (lo hi : Q) :
  19 <= i -> i < length close ->
  (forall c : num, c ∈ close -> (lo <= c)%Q /\ (c <= hi)%Q) ->
  (lo <= window_mean close i)%Q /\ (window_mean close i <= hi)%Q.
Proof.
  intros Hge Hlt Hall. unfold window_mean.
  destruct (Qsum_bounds (slice (i - 19) (i + 1) close) lo hi) as [H1 H2].
  { intros c Hc. apply Hall, (slice_subseteq _ _ _ _ Hc). }
  rewrite slice_length in H1, H2 by lia.
  replace (i + 1 - (i - 19)) with 20 in H1, H2 by lia.
  change (inject_Z (Z.of_nat 20)) with 20%Q in H1, H2.
  set (total := Qsum (value <$> slice (i - 19) (i + 1) close)) in *.
  assert (E : (total / 20 == total * (1 # 20))%Q) by (unfold Qdiv; reflexivity).
  rewrite E. split; lra.
Qed.

Lemma ewm_loop_bounds (f a : Q) (minp : nat) (vals : list num) (lo hi : Q) :
  (f == 19 # 21)%Q -> (a == 2 # 21)%Q ->
  (forall c : num, c ∈ vals -> (lo <= c)%Q /\ (c <= hi)%Q) ->
  forall (wt : Q) (nobs i : nat) (c : cell),
    (lo <= wt)%Q /\ (wt <= hi)%Q -> minp <= S nobs ->
    Ewm.ewm_loop f a false minp vals wt 1 nobs !! i = Some c ->
    exists v, c = Finite v /\ (lo <= v)%Q /\ (v <= hi)%Q.
Proof.
  intros Hf Ha. induction vals as [|cur vals IH]; intros Hall wt nobs i c Hwt Hminp Hc.
  - discriminate.
  - cbn [Ewm.ewm_loop] in Hc. cbn zeta in Hc.
    set (wt' := if Qeq_bool wt cur then wt else _) in Hc.
    assert (Hwt' : (lo <= wt')%Q /\ (wt' <= hi)%Q).
    { destruct (Hall cur ltac:(left)) as [Hc1 Hc2]. destruct Hwt as [Hw1 Hw2].
      assert (E : (wt' == a * cur + f * wt)%Q).
      { apply EwmFacts.ewm_step. rewrite Hf, Ha. reflexivity. }
      rewrite E, Hf, Ha. split; lra. }
    destruct i as [|i]; cbn [lookup list_lookup] in Hc.
    + apply Nat.leb_le in Hminp. rewrite Hminp in Hc.
      injection Hc as <-. exists wt'. split; [reflexivity | exact Hwt'].
    + apply (IH (fun c0 Hc0 => Hall c0 ltac:(right; exact Hc0)) wt' (S nobs) i c Hwt');
        [lia | exact Hc].
Qed.

Lemma ewm_mean_20_bounds (vals : list num) (lo hi : Q) (i : nat) (c : cell) :
  (forall c : num, c ∈ vals -> (lo <= c)%Q /\ (c <= hi)%Q) ->
  Ewm.ewm_mean 20 false vals !! i = Some c ->
  exists v, c = Finite v /\ (lo <= v)%Q /\ (v <= hi)%Q.
Proof.
  intros Hall Hc. unfold Ewm.ewm_mean, Ewm.ewm in Hc.
  destruct vals as [|v0 rest]; [discriminate|].
  destruct EwmFacts.alpha_span_20 as [Ha Hf].
  destruct i as [|i]; cbn [lookup list_lookup] in Hc.
  - cbn in Hc. injection Hc as <-. exists v0. split; [reflexivity|]. apply Hall. left.
  - apply (ewm_loop_bounds _ _ (Nat.max 0 1) rest lo hi Hf Ha
             (fun c0 Hc0 => Hall c0 ltac:(right; exact Hc0)) v0 1 i c);
      [apply Hall; left | simpl; lia | exact Hc].
Qed.

(** X12: both indicators are averages of closes: when every close of the
    table lies between lo and hi, and lo and hi are at most 2^1019 in
    absolute value (so that the sum of a window stays within the float64
    range), every SMA20 cell the indicator computation writes is missing or
    a number between lo and hi, and every EMA20 cell is a number between lo
    and hi (so on a flat series both equal the close). *)
Theorem indicators_within_close_range (w : world) (df : ref) (d : DataFrame)
        (lo hi : Q) :
  heap w !! df = Some d ->
  (forall r, r ∈ rows d -> (lo <= Close r)%Q /\ (Close r <= hi)%Q) ->
  (- safe_close <= lo)%Q -> (hi <= safe_close)%Q ->
  exists w' d' sma ema,
    add_indicators df w = (Ok df, w')
    /\ heap w' !! df = Some d'
    /\ SMA20 d' = Some sma /\ EMA20 d' = Some ema
    /\ (forall i c, sma !! i = Some c ->
          c = NaN \/ exists v, c = Finite v /\ (lo <= v)%Q /\ (v <= hi)%Q)
    /\ (forall i c, ema !! i = Some c ->
          exists v, c = Finite v /\ (lo <= v)%Q /\ (v <= hi)%Q).
Proof.
  intros H Hall Hlo Hhi.
  assert (Hcol : forall c : num, c ∈ column Close d -> (lo <= c)%Q /\ (c <= hi)%Q).
  { intros c Hc. unfold column in Hc. apply list_elem_of_fmap in Hc as (r & -> & Hr).
    apply Hall, Hr. }
  assert (Hsafe : forall c : num, c ∈ column Close d -> (Qabs c <= safe_close)%Q).
  { intros c Hc. destruct (Hcol c Hc). apply Qabs_Qle_condition. split; lra. }
  exists (mkWorld (<[df := augmented d]> (heap w)) (next w) (shown w)), (augmented d),
         (Rolling.rolling_mean 20 (column Close d)),
         (Ewm.ewm_mean 20 false (column Close d)).
  split; [apply add_indicators_run, H|].
  split; [apply lookup_insert_eq|].
  split; [reflexivity|]. split; [reflexivity|]. split.
  - intros i c Hc.
    assert (Hi : i < length (column Close d)).
    { apply lookup_lt_Some in Hc. rewrite rolling_mean_20_length in Hc. exact Hc. }
    destruct (decide (i < 19)) as [Hlt|Hge].
    + rewrite (rolling_mean_20_missing _ i Hi Hlt) in Hc. injection Hc as <-.
      left. reflexivity.
    + destruct (rolling_mean_20_defined _ i Hsafe Hi ltac:(lia)) as (v & Hv & E).
      rewrite Hv in Hc. injection Hc as <-. right. exists v. split; [reflexivity|].
      destruct (window_mean_bounds (column Close d) i lo hi ltac:(lia) Hi Hcol).
      rewrite E. split; assumption.
  - intros i c Hc. apply (ewm_mean_20_bounds (column Close d) lo hi i c Hcol Hc).
Qed.

Lemma indicators_within_close_range_witness :
  exists w' d' sma ema,
    add_indicators 0 (holding (fresh_table (sample_rows 21))) = (Ok 0, w')
    /\ heap w' !! 0 = Some d'
    /\ SMA20 d' = Some sma /\ EMA20 d' = Some ema
    /\ (forall i c, sma !! i = Some c ->
          c = NaN \/ exists v, c = Finite v /\ (1 <= v)%Q /\ (v <= 21)%Q)
    /\ (forall i c, ema !! i = Some c ->
          exists v, c = Finite v /\ (1 <= v)%Q /\ (v <= 21)%Q).
Proof.
  apply (indicators_within_close_range (holding (fresh_table (sample_rows 21))) 0
           (fresh_table (sample_rows 21)) 1 21).
  - reflexivity.
  - apply Forall_forall. unfold fresh_table, sample_rows. cbn [rows seq map].
    repeat (constructor; [vm_compute; split; discriminate|]). constructor.
  - vm_compute. discriminate.
  - vm_compute. discriminate.
Defined.

(** ** Earlier cells do not change when rows arrive *)

Lemma slice_app_le {A} (a b : nat) (l1 l2 : list A) :
  b <= length l1 -> slice a b (l1 ++ l2) = slice a b l1.
Proof.
  intros Hb. unfold slice. destruct (decide (a <= length l1)) as [Ha|Ha].
  - rewrite drop_app_le by exact Ha. apply take_app_le. rewrite length_drop. lia.
  - replace (b - a) with 0 by lia. rewrite !take_0. reflexivity.
Qed.

Lemma setup_app (l1 l2 : list num) (s : nat) :
  s < length l1 -> Rolling.setup (l1 ++ l2) s = Rolling.setup l1 s.
Proof.
  intros Hs. unfold Rolling.setup. rewrite app_nth1 by exact Hs. reflexivity.
Qed.

Lemma roll_mean_loop_app_values (l1 l2 : list num) (w minp : nat) (idx : list nat) :
  0 < w ->
  (forall i, i ∈ idx -> i < length l1) ->
  forall st,
    Rolling.roll_mean_loop (l1 ++ l2) w minp idx st
    = Rolling.roll_mean_loop l1 w minp idx st.
Proof.
  intros Hw. induction idx as [|i idx IH]; intros Hidx st; [reflexivity|].
  assert (Hi : i < length l1) by (apply Hidx; left).
  cbn [Rolling.roll_mean_loop]. cbn zeta.
  assert (Hs : Rolling.win_start w i < length l1) by (unfold Rolling.win_start; lia).
  rewrite (setup_app l1 l2 _ Hs).
  unfold Rolling.win_start, Rolling.win_end.
  rewrite !(slice_app_le _ _ l1 l2) by lia.
  rewrite IH by (intros j Hj; apply Hidx; right; exact Hj).
  reflexivity.
Qed.

Lemma roll_mean_loop_take (values : list num) (w minp : nat) (idx1 idx2 : list nat) :
  forall st,
    take (length idx1) (Rolling.roll_mean_loop values w minp (idx1 ++ idx2) st)
    = Rolling.roll_mean_loop values w minp idx1 st.
Proof.
  induction idx1 as [|i idx1 IH]; intros st.
  - rewrite take_0. reflexivity.
  - rewrite <- app_comm_cons. cbn [Rolling.roll_mean_loop length firstn]. cbn zeta.
    rewrite IH. reflexivity.
Qed.

Lemma rolling_mean_prefix (window : nat) (l1 l2 : list num) :
  0 < window ->
  take (length l1) (Rolling.rolling_mean window (l1 ++ l2))
  = Rolling.rolling_mean window l1.
Proof.
  intros Hw. destruct l1 as [|v l1]; [rewrite take_0; reflexivity|].
  unfold Rolling.rolling_mean, Rolling.roll_mean.
  rewrite length_app, seq_app.
  pose proof (roll_mean_loop_take ((v :: l1) ++ l2) window window
                (seq 0 (length (v :: l1)))
                (seq (0 + length (v :: l1)) (length l2))
                (Rolling.setup ((v :: l1) ++ l2) 0)) as Ht.
  rewrite length_seq in Ht. rewrite Ht.
  rewrite (setup_app (v :: l1) l2 0) by (simpl; lia).
  apply roll_mean_loop_app_values; [exact Hw|].
  intros i Hi. apply elem_of_seq in Hi. lia.
Qed.

Lemma ewm_loop_take (f a : Q) (adjust : bool) (minp : nat) (l1 l2 : list num) :
  forall (wt old_wt : Q) (nobs : nat),
    take (length l1) (Ewm.ewm_loop f a adjust minp (l1 ++ l2) wt old_wt nobs)
    = Ewm.ewm_loop f a adjust minp l1 wt old_wt nobs.
Proof.
  induction l1 as [|c l1 IH]; intros wt old_wt nobs.
  - rewrite take_0. reflexivity.
  - rewrite <- app_comm_cons. cbn [Ewm.ewm_loop length firstn]. cbn zeta.
    rewrite IH. reflexivity.
Qed.

Lemma ewm_mean_prefix (span : Q) (adjust : bool) (l1 l2 : list num) :
  take (length l1) (Ewm.ewm_mean span adjust (l1 ++ l2)) = Ewm.ewm_mean span adjust l1.
Proof.
  unfold Ewm.ewm_mean, Ewm.ewm. destruct l1 as [|v0 l1].
  - rewrite take_0. reflexivity.
  - rewrite <- app_comm_cons. cbn [length firstn]. rewrite ewm_loop_take. reflexivity.
Qed.

(** X13: the indicators look only backwards: when a table extends another one by
    further rows, the SMA20 and EMA20 cells the indicator computation writes
    for the rows they share are the same in both, so the values of a row do
    not change on a later cycle that has fetched more rows after it. *)
Theorem indicators_of_earlier_rows_are_stable (w1 w2 : world) (df1 df2 : ref)
        (d1 d2 : DataFrame) (more : list Row) :
  heap w1 !! df1 = Some d1 ->
  heap w2 !! df2 = Some d2 ->
  rows d2 = rows d1 ++ more ->
  exists w1' w2' d1' d2' sma1 ema1 sma2 ema2,
    add_indicators df1 w1 = (Ok df1, w1') /\ heap w1' !! df1 = Some d1'
    /\ add_indicators df2 w2 = (Ok df2, w2') /\ heap w2' !! df2 = Some d2'
    /\ SMA20 d1' = Some sma1 /\ EMA20 d1' = Some ema1
    /\ SMA20 d2' = Some sma2 /\ EMA20 d2' = Some ema2
    /\ take (length (rows d1)) sma2 = sma1
    /\ take (length (rows d1)) ema2 = ema1.
Proof.
  intros H1 H2 Hrows.
  exists (mkWorld (<[df1 := augmented d1]> (heap w1)) (next w1) (shown w1)),
         (mkWorld (<[df2 := augmented d2]> (heap w2)) (next w2) (shown w2)),
         (augmented d1), (augmented d2),
         (Rolling.rolling_mean 20 (column Close d1)),
         (Ewm.ewm_mean 20 false (column Close d1)),
         (Rolling.rolling_mean 20 (column Close d2)),
         (Ewm.ewm_mean 20 false (column Close d2)).
  split; [apply add_indicators_run, H1|]. split; [apply lookup_insert_eq|].
  split; [apply add_indicators_run, H2|]. split; [apply lookup_insert_eq|].
  do 4 (split; [reflexivity|]).
  assert (Hcol : column Close d2 = column Close d1 ++ map Close more).
  { unfold column. rewrite Hrows. apply map_app. }
  assert (Hlen : length (rows d1) = length (column Close d1))
    by (unfold column; symmetry; apply length_map).
  rewrite Hcol, Hlen. split; [apply rolling_mean_prefix; lia | apply ewm_mean_prefix].
Qed.

Lemma indicators_of_earlier_rows_are_stable_witness :
  exists w1' w2' d1' d2' sma1 ema1 sma2 ema2,
    add_indicators 0 (holding (fresh_table (sample_rows 20))) = (Ok 0, w1')
    /\ heap w1' !! 0 = Some d1'
    /\ add_indicators 0
         (holding (fresh_table (sample_rows 20 ++ [sample_row 21 7]))) = (Ok 0, w2')
    /\ heap w2' !! 0 = Some d2'
    /\ SMA20 d1' = Some sma1 /\ EMA20 d1' = Some ema1
    /\ SMA20 d2' = Some sma2 /\ EMA20 d2' = Some ema2
    /\ take (length (rows (fresh_table (sample_rows 20)))) sma2 = sma1
    /\ take (length (rows (fresh_table (sample_rows 20)))) ema2 = ema1.
Proof.
  apply (indicators_of_earlier_rows_are_stable
           (holding (fresh_table (sample_rows 20)))
           (holding (fresh_table (sample_rows 20 ++ [sample_row 21 7])))
           0 0 (fresh_table (sample_rows 20))
           (fresh_table (sample_rows 20 ++ [sample_row 21 7])) [sample_row 21 7]).
  - reflexivity.
  - reflexivity.
  - reflexivity.
Defined.

(** ** The moving average moves by one row at a time *)

Lemma window_mean_slide (close : list num) (i : nat) (cin cout : num) :
  19 <= i ->
  close !! S i = Some cin -> close !! (i - 19) = Some cout ->
  (window_mean close (S i) == window_mean close i + (cin - cout) / 20)%Q.
Proof.
  intros Hi Hin Hout. unfold window_mean.
  replace (S i - 19) with (S (i - 19)) by lia.
  replace (S i + 1) with (S (S i)) by lia.
  replace (i + 1) with (S i) by lia.
  pose proof (Qsum_slice_split (i - 19) (S (i - 19)) (S i) close
                ltac:(lia) ltac:(lia)) as E1.
  pose proof (Qsum_slice_split (S (i - 19)) (S i) (S (S i)) close
                ltac:(lia) ltac:(lia)) as E2.
  rewrite (slice_singleton _ _ _ Hout) in E1.
  rewrite (slice_singleton _ _ _ Hin) in E2.
  cbn [Qsum foldr fmap list_fmap] in E1, E2. rewrite E1, E2. field.
Qed.

(** X14: while no close exceeds 2^1019 in absolute value (so that the sum of
    a window stays within the float64 range), each SMA20 cell from row 19
    on is the one before it plus a twentieth of the difference between the
    close that enters the window and the close that leaves it. *)
Theorem SMA20_moves_by_one_row (w : world) (df : ref) (d : DataFrame) :
  heap w !! df = Some d ->
  (forall r, r ∈ rows d -> (Qabs (Close r) <= safe_close)%Q) ->
  exists w' d' sma,
    add_indicators df w = (Ok df, w')
    /\ heap w' !! df = Some d'
    /\ SMA20 d' = Some sma
    /\ (forall i (cin cout : num),
          19 <= i ->
          column Close d !! S i = Some cin ->
          column Close d !! (i - 19) = Some cout ->
          exists v v',
            sma !! i = Some (Finite v) /\ sma !! S i = Some (Finite v')
            /\ (v' == v + (cin - cout) / 20)%Q).
Proof.
  intros H Hsafe.
  assert (Hcol : forall c : num, c ∈ column Close d -> (Qabs c <= safe_close)%Q).
  { intros c Hc. unfold column in Hc. apply list_elem_of_fmap in Hc as (r & -> & Hr).
    apply Hsafe, Hr. }
  exists (mkWorld (<[df := augmented d]> (heap w)) (next w) (shown w)), (augmented d),
         (Rolling.rolling_mean 20 (column Close d)).
  split; [apply add_indicators_run, H|]. split; [apply lookup_insert_eq|].
  split; [reflexivity|].
  intros i cin cout Hi Hin Hout.
  assert (HSi : S i < length (column Close d)) by (apply lookup_lt_Some in Hin; exact Hin).
  destruct (rolling_mean_20_defined (column Close d) i Hcol ltac:(lia) Hi)
    as (v & Ev & Eqv).
  destruct (rolling_mean_20_defined (column Close d) (S i) Hcol HSi ltac:(lia))
    as (v' & Ev' & Eqv').
  exists v, v'. split; [exact Ev|]. split; [exact Ev'|].
  rewrite Eqv, Eqv'. apply window_mean_slide; assumption.
Qed.

Lemma SMA20_moves_by_one_row_witness :
  exists w' d' sma,
    add_indicators 0 (holding (fresh_table (sample_rows 21))) = (Ok 0, w')
    /\ heap w' !! 0 = Some d'
    /\ SMA20 d' = Some sma
    /\ (forall i (cin cout : num),
          19 <= i ->
          column Close (fresh_table (sample_rows 21)) !! S i = Some cin ->
          column Close (fresh_table (sample_rows 21)) !! (i - 19) = Some cout ->
          exists v v',
            sma !! i = Some (Finite v) /\ sma !! S i = Some (Finite v')
            /\ (v' == v + (cin - cout) / 20)%Q).
Proof.
  apply (SMA20_moves_by_one_row (holding (fresh_table (sample_rows 21))) 0
           (fresh_table (sample_rows 21))).
  - reflexivity.
  - apply Forall_forall. unfold fresh_table, sample_rows. cbn [rows seq map].
    repeat (constructor; [vm_compute; discriminate|]). constructor.
Defined.

(** ** Worked examples *)

Example rolling_mean_window_3 :
  Rolling.rolling_mean 3 [Num 1; Num 2; Num 3; Num 4]
  = [NaN; NaN; Finite (6 # 3); Finite (9 # 3)].
Proof. vm_compute. reflexivity. Qed.

Example ewm_mean_constant :
  Ewm.ewm_mean 20 false [Num 5; Num 5; Num 5] = [Finite 5; Finite 5; Finite 5].
Proof. reflexivity. Qed.

Example range_down_5 : range_down 5 = [5; 4; 3; 2; 1].
Proof. reflexivity. Qed.

(** The two-row example: closes 102 then 101 give a change of -1 and a
    percent change of -100/102. *)
Example two_row_metrics :
  shown (run_cycle
           (yf_rows [mkRow 0 (Num 100) (Num 105) (Num 99) (Num 102) (Num 10);
                     mkRow 1 (Num 102) (Num 103) (Num 100) (Num 101) (Num 10)])
           "aapl" 5).2 !! 3
  = Some (Metric 1 "Latest Price" (Num 101)
            (Some (Finite (-1), Finite (-100 # 102)))).
Proof. vm_compute. reflexivity. Qed.

(** A change of +1 over the negative zero is -infinity, over the positive
    zero +infinity, and no change over a zero is NaN. *)
Example pct_change_over_zero :
  np_mul (np_truediv (np_sub (Finite (Num 1)) (Finite NegZero)) NegZero) 100 = NegInf
  /\ np_mul (np_truediv (np_sub (Finite (Num 1)) (Finite (Num 0))) (Num 0)) 100 = PosInf
  /\ np_mul (np_truediv (np_sub (Finite (Num 0)) (Finite (Num 0))) (Num 0)) 100 = NaN.
Proof. repeat split; reflexivity. Qed.

(** A quotient that leaves the float64 range is an infinity: from 1e-300 to
    1e10 the percent change is +infinity. *)
Example pct_change_overflows :
  np_mul (np_truediv (np_sub (Finite (Num (inject_Z (10 ^ 10))))
                             (Finite (Num (1 # 10 ^ 300))))
                     (Num (1 # 10 ^ 300))) 100
  = PosInf.
Proof. vm_compute. reflexivity. Qed.

(** Nineteen closes of 9.4e306 and one of 9.5e306: the sum of the window
    leaves the float64 range at its last row, and SMA20 at row 19 is
    +infinity. *)
Example SMA20_overflows_to_infinity :
  Rolling.rolling_mean 20
    (replicate 19 (Num (inject_Z (94 * 10 ^ 305))) ++ [Num (inject_Z (95 * 10 ^ 305))])
  !! 19 = Some PosInf.
Proof. vm_compute. reflexivity. Qed.
